(** * CATCH: CHARA Array's Thrifty Calibrator Hunter

    A shallow embedding of [catch.py]: the two operating modes
    [cal_finder] (discovery) and [cal_checker] (verification), the
    cross-match index bookkeeping between the successive VizieR
    catalogues, and the scoring rules of the verification mode.

    Conventions of the embedding.
    - Catalogue numbers are decimal; they are rationals ([Q]) here and the
      thresholds of the source ([9.0], [6.4], [0.075], ...) are the exact
      decimals.  The only division of the source, [check_pass_count /
      init_check_pass_count], is a rational division.
    - A column on which the source tests [is np.ma.masked] holds an
      [option Q] ([None] is the masked constant).  The other columns the
      source compares are compared with no mask test at all; they hold a
      plain number, so rows where such a column is masked are outside
      the model.
    - SIMBAD and VizieR are the outside world: a [Service] gives the answer
      to every query.  A run is a computation in a small monad that logs
      what the program does (queries, score assignments, messages, the file
      it writes) and stops at [exit] or at a Python exception.
    - Console formatting, colours, timing and the sexagesimal rendering of
      the coordinates are left out. *)

From Stdlib Require Import ZArith QArith Qabs List Ascii String Bool Lia.
Import ListNotations.

Open Scope string_scope.
Open Scope list_scope.
Open Scope Z_scope.

(** ** Python and numpy primitives *)

(** [a > b] and [a < b] on numbers. *)
Definition Qgt_bool (a b : Q) : bool := negb (Qle_bool a b).
Definition Qlt_bool (a b : Q) : bool := negb (Qle_bool b a).

(** Truth value of an int or float: everything but zero. *)
Definition truthy (x : Q) : bool := negb (Qeq_bool x 0).

(** [bool -> int] promotion of numpy when a boolean meets an integer. *)
Definition int_of_bool (b : bool) : Z := if b then 1 else 0.

(** [a[i]] for an integer [i] on a sequence of length [n]: a negative
    index counts from the end, anything else out of range raises. *)
Definition np_index (n : nat) (i : Z) : option nat :=
  if (0 <=? i) && (i <? Z.of_nat n) then Some (Z.to_nat i)
  else if (- Z.of_nat n <=? i) && (i <? 0) then Some (Z.to_nat (Z.of_nat n + i))
  else None.

(** [tbl[ind]] for an integer array [ind] (fancy indexing): one row per
    index, in the order of [ind]; [None] is [IndexError]. *)
Fixpoint take_rows {A : Type} (tbl : list A) (ind : list Z) : option (list A) :=
  match ind with
  | [] => Some []
  | i :: ind' =>
      match np_index (List.length tbl) i with
      | None => None
      | Some n =>
          match nth_error tbl n, take_rows tbl ind' with
          | Some row, Some rows => Some (row :: rows)
          | _, _ => None
          end
      end
  end.

(** [collections.Counter(xs).items()]: the distinct values in order of
    first occurrence, each with its number of occurrences. *)
Fixpoint counter_add (x : Z) (c : list (Z * nat)) : list (Z * nat) :=
  match c with
  | [] => [(x, 1%nat)]
  | (y, n) :: c' => if x =? y then (y, S n) :: c' else (y, n) :: counter_add x c'
  end.

Definition Counter (xs : list Z) : list (Z * nat) :=
  fold_left (fun c x => counter_add x c) xs [].

(** [np.isin(x, xs)] on one element. *)
Definition isin (x : Z) (xs : list Z) : bool := existsb (Z.eqb x) xs.

(** ** Catalogue rows *)

(** A row of a SIMBAD answer: [ra], [dec] in degrees and the [V] magnitude. *)
Record SimbadRow := {
  s_ra : Q;
  s_dec : Q;
  s_V : Q
}.

(** JSDC (II/346/jsdc_v2), columns as requested by the source. *)
Record JsdcRow := {
  j_RAJ2000 : Q;
  j_DEJ2000 : Q;
  j_Name : string;
  j_SpType : string;
  j_Vmag : Q;
  j_Rmag : option Q;
  j_Hmag : Q;
  j_Kmag : option Q;
  j_UDDH : Q;
  j_UDDK : Q;
  j_r : Q
}.

(** Gaia DR3 (I/355/gaiadr3).  [g_q] is the [_q] column: the 1-based
    number of the reference row the service matched this row to. *)
Record GaiaRow := {
  g_q : Z;
  g_RAJ2000 : Q;
  g_DEJ2000 : Q;
  g_IPDfmp : option Q;
  g_RUWE : option Q;
  g_RVamp : option Q;
  g_Vbroad : option Q;
  g_r : Q
}.

(** Kervella et al. 2019 (J/A+A/623/A72). *)
Record KervellaRow := {
  k_q : Z;
  k_RAJ2000 : Q;
  k_DEJ2000 : Q;
  k_Name : string;
  k_DMS : Z;
  k_W : Z;
  k_BinH : Z;
  k_BinG2 : Z
}.

(** Cruzalebes et al. 2019 (II/361/mdfc-v10). *)
Record CruzalebesRow := {
  c_q : Z;
  c_Diam_GAIA : Q;
  c_CalFlag : Z;
  c_IRflag : Z
}.

(** The column groups that [cal_finder] stacks side by side. *)
Record GaiaCols := {
  gc_IPDfmp : option Q;
  gc_RUWE : option Q;
  gc_RVamp : option Q;
  gc_Vbroad : option Q
}.

Record KervellaCols := {
  kc_DMS : Z;
  kc_W : Z;
  kc_BinH : Z;
  kc_BinG2 : Z
}.

Record CruzalebesCols := {
  cc_Diam_GAIA : Q;
  cc_CalFlag : Z;
  cc_IRflag : Z
}.

Definition gaia_cols (g : GaiaRow) : GaiaCols :=
  {| gc_IPDfmp := g_IPDfmp g; gc_RUWE := g_RUWE g;
     gc_RVamp := g_RVamp g; gc_Vbroad := g_Vbroad g |}.

Definition kervella_cols (k : KervellaRow) : KervellaCols :=
  {| kc_DMS := k_DMS k; kc_W := k_W k; kc_BinH := k_BinH k; kc_BinG2 := k_BinG2 k |}.

Definition cruzalebes_cols (c : CruzalebesRow) : CruzalebesCols :=
  {| cc_Diam_GAIA := c_Diam_GAIA c; cc_CalFlag := c_CalFlag c; cc_IRflag := c_IRflag c |}.

(** Rows of [first_cross_check_table], [second_cross_check_table], [fcct]. *)
Definition FirstRow : Type := JsdcRow * GaiaCols.
Definition SecondRow : Type := FirstRow * KervellaCols.
Definition FinalRow : Type := SecondRow * CruzalebesCols.

(** [hstack([a, b])] on two tables.  The source only stacks tables of the
    same length ([take_rows_length]): row [i] of one beside row [i] of the
    other. *)
Definition hstack {A B : Type} (a : list A) (b : list B) : list (A * B) := combine a b.

(** ** VizieR queries *)

Inductive Catalog := JSDC | GaiaDR3 | Kervella | MDFC.

(** The [radius] strings of the source: ["10d"], ["10s"], ["5s"],
    [f"{gaia_comp_check}s"]. *)
Inductive Radius := Degrees (d : Q) | Arcsec (s : Q).

(** A VizieR column constraint: ["<9.0"], ["<=6.4"], ["=0"], [">-25"]. *)
Inductive Constraint := CLt (x : Q) | CLe (x : Q) | CEq (x : Q) | CGt (x : Q).

(** What a region query is centred on: a name to resolve, or the positions
    of the rows of a table (then every answer row carries [_q]). *)
Inductive Reference := ByName (name : string) | ByRows (coords : list (Q * Q)).

Record RegionQuery := {
  rq_catalog : Catalog;
  rq_row_limit : option Z;          (* [None]: ROW_LIMIT left at the library default *)
  rq_reference : Reference;
  rq_radius : Radius;
  rq_column_filters : list (string * Constraint)
}.

(** The answers of the outside world.  A VizieR answer is a list of tables
    (empty when nothing matched). *)
Record Service := {
  simbad_query_object : string -> list SimbadRow;
  vizier_jsdc : RegionQuery -> list (list JsdcRow);
  vizier_gaia : RegionQuery -> list (list GaiaRow);
  vizier_kervella : RegionQuery -> list (list KervellaRow);
  vizier_cruzalebes : RegionQuery -> list (list CruzalebesRow)
}.

(** Meaning of a constraint on a value of the column, as the service
    applies it (https://vizier.cds.unistra.fr/vizier/vizHelp/cst.htx). *)
Definition satisfies (c : Constraint) (v : Q) : bool :=
  match c with
  | CLt x => Qlt_bool v x
  | CLe x => Qle_bool v x
  | CEq x => Qeq_bool v x
  | CGt x => Qgt_bool v x
  end.

(** A row passes [column_filters] when every constrained column has a
    value and the value satisfies the constraint. *)
Definition passes_filters {R : Type} (column : string -> R -> option Q)
    (filters : list (string * Constraint)) (row : R) : bool :=
  forallb (fun f => match column (fst f) row with
                    | Some v => satisfies (snd f) v
                    | None => false
                    end) filters.

Definition jsdc_column (name : string) (r : JsdcRow) : option Q :=
  if String.eqb name "_RAJ2000" then Some (j_RAJ2000 r)
  else if String.eqb name "_DEJ2000" then Some (j_DEJ2000 r)
  else if String.eqb name "Vmag" then Some (j_Vmag r)
  else if String.eqb name "Rmag" then j_Rmag r
  else if String.eqb name "Hmag" then Some (j_Hmag r)
  else if String.eqb name "Kmag" then j_Kmag r
  else if String.eqb name "UDDH" then Some (j_UDDH r)
  else if String.eqb name "UDDK" then Some (j_UDDK r)
  else if String.eqb name "_r" then Some (j_r r)
  else None.

Definition cruzalebes_column (name : string) (r : CruzalebesRow) : option Q :=
  if String.eqb name "Diam-GAIA" then Some (c_Diam_GAIA r)
  else if String.eqb name "CalFlag" then Some (inject_Z (c_CalFlag r))
  else if String.eqb name "IRflag" then Some (inject_Z (c_IRflag r))
  else None.

(** ** Runs *)

Inductive ExitMessage :=
  | NotFoundInSimbad
  | OutsideDeclinationLimits
  | NoCalibratorsInJSDC
  | NoCalibratorsInGaia
  | NoCalibratorsInKervella
  | NoCalibratorsInMDFC
  | NotFoundInGaia.

(** How a run stops early: [exit(...)], or an exception raised at a line
    of [catch.py]. *)
Inductive Abort :=
  | SysExit (msg : ExitMessage)
  | IndexError (line : nat)
  | ValueError (line : nat).

(** The lines of the verification report that matter to the score. *)
Inductive Message :=
  | FailsJSDC | VmagAbove9 | HmagAbove6_4 | UDDHAbove0_5 | PassesJSDC | NotInJSDC
  | GaiaCompanionsWarning
  | NoVbroadWarning | FailsGaia | IPDfmpAbove2 | RUWEAbove1_4 | VbroadAbove100 | PassesGaia
  | FailsKervella | PassesKervella | NotInKervella
  | FailsMDFC | CalFlagNonZero | IRflagIs7 | PassesMDFC | NotInMDFC
  | IdealCalibrator | UsableCalibrator | UnlikelyViable_SubmitToBadCal
  | FoundCalibrators (n : nat) | FoundNoCalibrators.

Inductive Event :=
  | Queried (q : RegionQuery)
  | Score (check_pass_count : Z)
  | Printed (m : Message)
  | Wrote (file : string) (fcct : list FinalRow).

(** A run: what was done so far, and either the reason it stopped or its
    value. *)
Definition Run (A : Type) : Type := list Event * (Abort + A).

Definition ret {A : Type} (a : A) : Run A := ([], inr a).

Definition bind {A B : Type} (m : Run A) (k : A -> Run B) : Run B :=
  match m with
  | (log, inl e) => (log, inl e)
  | (log, inr a) => let (log', r) := k a in (log ++ log', r)
  end.

Definition tell (e : Event) : Run unit := ([e], inr tt).
Definition abort {A : Type} (e : Abort) : Run A := ([], inl e).
Definition exit {A : Type} (msg : ExitMessage) : Run A := abort (SysExit msg).
Definition print (m : Message) : Run unit := tell (Printed m).

Declare Scope run_scope.
Delimit Scope run_scope with run.
Notation "x <- m ;; k" := (bind m (fun x => k))
  (at level 100, m at next level, right associativity) : run_scope.
Notation "m ;; k" := (bind m (fun _ => k))
  (at level 100, right associativity) : run_scope.
Open Scope run_scope.

(** [if c: body] with no [else]. *)
Definition when (c : bool) (body : Run unit) : Run unit :=
  if c then body else ret tt.

(** [vizier.query_region(...)] on each catalogue: the query is sent and
    the service answers. *)
Definition query_jsdc (svc : Service) (q : RegionQuery) : Run (list (list JsdcRow)) :=
  tell (Queried q) ;; ret (vizier_jsdc svc q).
Definition query_gaia (svc : Service) (q : RegionQuery) : Run (list (list GaiaRow)) :=
  tell (Queried q) ;; ret (vizier_gaia svc q).
Definition query_kervella (svc : Service) (q : RegionQuery) : Run (list (list KervellaRow)) :=
  tell (Queried q) ;; ret (vizier_kervella svc q).
Definition query_cruzalebes (svc : Service) (q : RegionQuery) : Run (list (list CruzalebesRow)) :=
  tell (Queried q) ;; ret (vizier_cruzalebes svc q).

(** [check_pass_count -= k]: the new value is logged. *)
Definition decrement (check_pass_count k : Z) : Run Z :=
  tell (Score (check_pass_count - k)) ;; ret (check_pass_count - k).

(** The running values of [check_pass_count], oldest first. *)
Fixpoint scores (log : list Event) : list Z :=
  match log with
  | [] => []
  | Score s :: log' => s :: scores log'
  | _ :: log' => scores log'
  end.

(** The only row of a table the source tests as a whole in an [if]:
    [col[0]] in the report line raises on an empty table, the truth value
    of a longer boolean array is ambiguous. *)
Definition only_row {A : Type} (print_line if_line : nat) (table : list A) : Run A :=
  match table with
  | [] => abort (IndexError print_line)
  | [row] => ret row
  | _ :: _ :: _ => abort (ValueError if_line)
  end.

(** The declination test shared by both modes (lines 48-56, 203-211). *)
Definition resolve (svc : Service) (name : string) : Run SimbadRow :=
  match simbad_query_object svc name with
  | [] => exit NotFoundInSimbad
  | star :: _ =>
      if Qle_bool (s_dec star) (-25) then exit OutsideDeclinationLimits
      else ret star
  end.

(** ** Verification mode: [cal_checker] *)

(** [x is np.ma.masked]. *)
Definition is_masked (x : option Q) : bool :=
  match x with None => true | Some _ => false end.

(** Truth value of [x > t] in an [if] or under [and]: the comparison of the
    masked constant is masked, and the masked constant is false. *)
Definition above (x : option Q) (t : Q) : bool :=
  match x with None => false | Some v => Qgt_bool v t end.

(** Lines 222-227. *)
Definition jsdc_check_query (calibrator_name : string) : RegionQuery :=
  {| rq_catalog := JSDC; rq_row_limit := Some 100;
     rq_reference := ByName calibrator_name; rq_radius := Arcsec 5;
     rq_column_filters := [] |}.

(** The condition of line 234. *)
Definition jsdc_fails (row : JsdcRow) : bool :=
  Qgt_bool (j_Vmag row) 9 || Qgt_bool (j_Hmag row) 6.4 || Qgt_bool (j_UDDH row) 0.5.

(** Lines 221-250. *)
Definition jsdc_check (svc : Service) (calibrator_name : string)
    (check_pass_count : Z) : Run Z :=
  jmmc_result <- query_jsdc svc (jsdc_check_query calibrator_name) ;;
  match jmmc_result with
  | table :: _ =>
      row <- only_row 232 234 table ;;
      if jsdc_fails row then
        print FailsJSDC ;;
        check_pass_count <- decrement check_pass_count 1 ;;
        when (Qgt_bool (j_Vmag row) 9) (print VmagAbove9) ;;
        when (Qgt_bool (j_Hmag row) 6.4) (print HmagAbove6_4) ;;
        when (Qgt_bool (j_UDDH row) 0.5) (print UDDHAbove0_5) ;;
        ret check_pass_count
      else
        print PassesJSDC ;;
        ret check_pass_count
  | [] =>
      print NotInJSDC ;;
      decrement check_pass_count 1
  end.

(** Lines 254-257. *)
Definition gaia_check_query (calibrator_name : string) : RegionQuery :=
  {| rq_catalog := GaiaDR3; rq_row_limit := None;
     rq_reference := ByName calibrator_name; rq_radius := Arcsec 10;
     rq_column_filters := [] |}.

(** Lines 264-269: more than one Gaia row within 10 arcseconds. *)
Definition gaia_companion_warning (gaia_comp_check : bool) (table : list GaiaRow)
    (check_pass_count : Z) : Run Z :=
  if (1 <? Z.of_nat (List.length table)) then
    print GaiaCompanionsWarning ;;
    if gaia_comp_check then decrement check_pass_count 1
    else ret check_pass_count
  else ret check_pass_count.

(** The condition of lines 280-282. *)
Definition gaia_fails (row : GaiaRow) : bool :=
  (negb (is_masked (g_IPDfmp row)) && above (g_IPDfmp row) 2)
  || (negb (is_masked (g_RUWE row)) && above (g_RUWE row) 1.4)
  || (negb (is_masked (g_Vbroad row)) && above (g_Vbroad row) 100).

(** Lines 271-296, on [gaia_result[0]]. *)
Definition gaia_threshold_checks (row : GaiaRow) (check_pass_count : Z) : Run Z :=
  if is_masked (g_Vbroad row) then
    print NoVbroadWarning ;;
    decrement check_pass_count 5
  else
    if gaia_fails row then
      print FailsGaia ;;
      check_pass_count <- decrement check_pass_count 1 ;;
      when (above (g_IPDfmp row) 2) (print IPDfmpAbove2) ;;
      when (above (g_RUWE row) 1.4) (print RUWEAbove1_4) ;;
      if above (g_Vbroad row) 100 then
        check_pass_count <- decrement check_pass_count 5 ;;
        print VbroadAbove100 ;;
        ret check_pass_count
      else ret check_pass_count
    else
      print PassesGaia ;;
      ret check_pass_count.

(** Lines 252-296. *)
Definition gaia_check (svc : Service) (calibrator_name : string)
    (gaia_comp_check : bool) (check_pass_count : Z) : Run Z :=
  gaia_result <- query_gaia svc (gaia_check_query calibrator_name) ;;
  match gaia_result with
  | [] => exit NotFoundInGaia
  | table :: _ =>
      check_pass_count <- gaia_companion_warning gaia_comp_check table check_pass_count ;;
      match table with
      | [] => abort (IndexError 271)
      | row :: _ => gaia_threshold_checks row check_pass_count
      end
  end.

(** Lines 299-301. *)
Definition kervella_check_query (calibrator_name : string) : RegionQuery :=
  {| rq_catalog := Kervella; rq_row_limit := None;
     rq_reference := ByName calibrator_name; rq_radius := Arcsec 5;
     rq_column_filters := [] |}.

(** The condition of lines 306-307.  [|] binds tighter than [!=], so the
    last comparison is applied to the bitwise or of the three booleans with
    the integer [BinG2]. *)
Definition kervella_fails (row : KervellaRow) : bool :=
  negb (Z.lor (int_of_bool (negb (k_DMS row =? 0) || negb (k_W row =? 0)
                            || negb (k_BinH row =? 0)))
              (k_BinG2 row) =? 0).

(** Lines 298-325. *)
Definition kervella_check (svc : Service) (calibrator_name : string)
    (check_pass_count : Z) : Run Z :=
  kervella_result <- query_kervella svc (kervella_check_query calibrator_name) ;;
  match kervella_result with
  | table :: _ =>
      row <- only_row 304 306 table ;;
      if kervella_fails row then
        print FailsKervella ;;
        decrement check_pass_count 5
      else
        print PassesKervella ;;
        ret check_pass_count
  | [] =>
      print NotInKervella ;;
      decrement check_pass_count 1
  end.

(** Lines 329-331. *)
Definition cruzalebes_check_query (calibrator_name : string) : RegionQuery :=
  {| rq_catalog := MDFC; rq_row_limit := None;
     rq_reference := ByName calibrator_name; rq_radius := Arcsec 5;
     rq_column_filters := [] |}.

(** The condition of line 337. *)
Definition cruzalebes_fails (row : CruzalebesRow) : bool :=
  negb (c_CalFlag row =? 0) || (c_IRflag row =? 7).

(** Lines 328-351. *)
Definition cruzalebes_check (svc : Service) (calibrator_name : string)
    (check_pass_count : Z) : Run Z :=
  cruzalebes_result <- query_cruzalebes svc (cruzalebes_check_query calibrator_name) ;;
  match cruzalebes_result with
  | table :: _ =>
      row <- only_row 336 337 table ;;
      if cruzalebes_fails row then
        print FailsMDFC ;;
        check_pass_count <- decrement check_pass_count 1 ;;
        when (negb (c_CalFlag row =? 0)) (print CalFlagNonZero) ;;
        when (c_IRflag row =? 7) (print IRflagIs7) ;;
        ret check_pass_count
      else
        print PassesMDFC ;;
        ret check_pass_count
  | [] =>
      print NotInMDFC ;;
      decrement check_pass_count 1
  end.

(** [check_pass_count / init_check_pass_count].  The total is 4 or 5 and
    the score an integer: the float quotient compares to 1 and to 0.7 as
    the rational does ([usable_iff_one_point_lost]). *)
Definition pass_ratio (check_pass_count init_check_pass_count : Z) : Q :=
  (inject_Z check_pass_count / inject_Z init_check_pass_count)%Q.

(** Lines 354-362: the closing line of the report. *)
Definition classification (check_pass_count init_check_pass_count : Z) : Message :=
  let r := pass_ratio check_pass_count init_check_pass_count in
  if Qeq_bool r 1 then IdealCalibrator
  else if Qlt_bool r 1 && Qle_bool 0.7 r then UsableCalibrator
  else UnlikelyViable_SubmitToBadCal.

(** Lines 213-216. *)
Definition init_check_pass_count (gaia_comp_check : bool) : Z :=
  if gaia_comp_check then 5 else 4.

(** [cal_checker(calibrator_name, gaia_comp_check)]. *)
Definition cal_checker (svc : Service) (calibrator_name : string)
    (gaia_comp_check : bool) : Run unit :=
  resolve svc calibrator_name ;;
  let init := init_check_pass_count gaia_comp_check in
  tell (Score init) ;;
  check_pass_count <- jsdc_check svc calibrator_name init ;;
  check_pass_count <- gaia_check svc calibrator_name gaia_comp_check check_pass_count ;;
  check_pass_count <- kervella_check svc calibrator_name check_pass_count ;;
  check_pass_count <- cruzalebes_check svc calibrator_name check_pass_count ;;
  print (classification check_pass_count init).

(** ** Discovery mode: [cal_finder] *)

(** [column_filters] of lines 75-76, 92-93, 128-129 and 146-147. *)
Definition jsdc_column_filters : list (string * Constraint) :=
  [("Vmag", CLt 9.0); ("Hmag", CLe 6.4); ("UDDH", CLt 0.4); ("_DEJ2000", CGt (-25))].

Definition gaia_column_filters : list (string * Constraint) :=
  [("IPDfmp", CLt 2); ("RUWE", CLt 1.4); ("Vbroad", CLt 100)].

Definition kervella_column_filters : list (string * Constraint) :=
  [("DMS", CEq 0); ("W", CEq 0); ("BinH", CEq 0); ("BinG2", CEq 0)].

Definition cruzalebes_column_filters : list (string * Constraint) :=
  [("CalFlag", CEq 0); ("IRflag", CEq 0)].

(** The positions ([_RAJ2000], [_DEJ2000]) a table passed as the centre of
    a region query stands for. *)
Definition gaia_coords (t : list GaiaRow) : list (Q * Q) :=
  map (fun g => (g_RAJ2000 g, g_DEJ2000 g)) t.
Definition jsdc_coords (t : list JsdcRow) : list (Q * Q) :=
  map (fun j => (j_RAJ2000 j, j_DEJ2000 j)) t.
Definition kervella_coords (t : list KervellaRow) : list (Q * Q) :=
  map (fun k => (k_RAJ2000 k, k_DEJ2000 k)) t.

Definition jsdc_find_query (star_name : string) : RegionQuery :=
  {| rq_catalog := JSDC; rq_row_limit := Some 100;
     rq_reference := ByName star_name; rq_radius := Degrees 10;
     rq_column_filters := jsdc_column_filters |}.

Definition gaia_find_query (jmmc_result : list JsdcRow) : RegionQuery :=
  {| rq_catalog := GaiaDR3; rq_row_limit := None;
     rq_reference := ByRows (jsdc_coords jmmc_result); rq_radius := Arcsec 10;
     rq_column_filters := gaia_column_filters |}.

Definition neighbors_query (gaia_result : list GaiaRow) (radius : Q) : RegionQuery :=
  {| rq_catalog := GaiaDR3; rq_row_limit := Some (-1);
     rq_reference := ByRows (gaia_coords gaia_result); rq_radius := Arcsec radius;
     rq_column_filters := [] |}.

Definition kervella_find_query (gaia_result : list GaiaRow) : RegionQuery :=
  {| rq_catalog := Kervella; rq_row_limit := None;
     rq_reference := ByRows (gaia_coords gaia_result); rq_radius := Arcsec 10;
     rq_column_filters := kervella_column_filters |}.

Definition cruzalebes_find_query (kervella_result : list KervellaRow) : RegionQuery :=
  {| rq_catalog := MDFC; rq_row_limit := None;
     rq_reference := ByRows (kervella_coords kervella_result); rq_radius := Arcsec 10;
     rq_column_filters := cruzalebes_column_filters |}.

(** [if len(result) > 0: result = result[0]  else: exit(...)]. *)
Definition first_table {A : Type} (result : list (list A)) (msg : ExitMessage)
    : Run (list A) :=
  match result with
  | table :: _ => ret table
  | [] => exit msg
  end.

(** Line 110: the values of [neighbors['_q']] that occur more than once. *)
Definition removal_list (neighbors_q : list Z) : list Z :=
  map fst (filter (fun item => (1 <? snd item)%nat) (Counter neighbors_q)).

(** Lines 100-113. *)
Definition companion_exclusion (svc : Service) (gaia_comp_check : option Q)
    (gaia_result : list GaiaRow) : Run (list GaiaRow) :=
  match gaia_comp_check with
  | Some radius =>
      if truthy radius then
        result <- query_gaia svc (neighbors_query gaia_result radius) ;;
        match result with
        | [] => abort (IndexError 108)
        | neighbors :: _ =>
            let removal := removal_list (map g_q neighbors) in
            if (0 <? List.length removal)%nat then
              ret (filter (fun g => negb (isin (g_q g) removal)) gaia_result)
            else ret gaia_result
        end
      else ret gaia_result
  | None => ret gaia_result
  end.

(** [tbl[ind]], raising [IndexError] at the given line. *)
Definition select_rows {A : Type} (line : nat) (tbl : list A) (ind : list Z)
    : Run (list A) :=
  match take_rows tbl ind with
  | Some rows => ret rows
  | None => abort (IndexError line)
  end.

(** Line 162, on one row of [fcct]. *)
Definition diameter_consistent (row : FinalRow) : bool :=
  let jmmc := fst (fst (fst row)) in
  let diam := cc_Diam_GAIA (snd row) in
  Qlt_bool (Qabs (diam - j_UDDH jmmc)) 0.075
  && Qlt_bool (Qabs (diam - j_UDDK jmmc)) 0.075.

Definition output_file (star_name : string) : string :=
  String.append star_name "_Calibrators.txt".

(** [cal_finder(star_name, gaia_comp_check)]. *)
Definition cal_finder (svc : Service) (star_name : string)
    (gaia_comp_check : option Q) : Run unit :=
  resolve svc star_name ;;
  jmmc_result <- query_jsdc svc (jsdc_find_query star_name) ;;
  jmmc_result <- first_table jmmc_result NoCalibratorsInJSDC ;;
  gaia_result <- query_gaia svc (gaia_find_query jmmc_result) ;;
  gaia_result <- first_table gaia_result NoCalibratorsInGaia ;;
  gaia_result <- companion_exclusion svc gaia_comp_check gaia_result ;;
  let ind := map (fun g => g_q g - 1) gaia_result in
  jmmc_cols <- select_rows 116 jmmc_result ind ;;
  let first_cross_check_table := hstack jmmc_cols (map gaia_cols gaia_result) in
  kervella_result <- query_kervella svc (kervella_find_query gaia_result) ;;
  kervella_result <- first_table kervella_result NoCalibratorsInKervella ;;
  let ind := map (fun k => k_q k - 1) kervella_result in
  rows <- select_rows 141 first_cross_check_table ind ;;
  let second_cross_check_table := hstack rows (map kervella_cols kervella_result) in
  cruzalebes_result <- query_cruzalebes svc (cruzalebes_find_query kervella_result) ;;
  cruzalebes_result <- first_table cruzalebes_result NoCalibratorsInMDFC ;;
  let ind := map (fun c => c_q c - 1) cruzalebes_result in
  rows <- select_rows 159 second_cross_check_table ind ;;
  let fcct := hstack rows (map cruzalebes_cols cruzalebes_result) in
  let fcct := filter diameter_consistent fcct in
  tell (Wrote (output_file star_name) fcct) ;;
  if (0 <? List.length fcct)%nat then print (FoundCalibrators (List.length fcct))
  else print FoundNoCalibrators.

(** ** The prompt: [main] *)

(** What [main] itself adds to the log of the mode it runs: the line that
    rejects a cutoff radius. *)
Inductive MainEvent :=
  | Core (e : Event)
  | InvalidCutoffRadius.

(** How [main] ends: it returns, the mode it ran stopped, it exits because
    no mode was chosen, or [input()] finds the standard input closed. *)
Inductive MainResult :=
  | Returned
  | Stopped (a : Abort)
  | NoOptionSelected
  | EOFError.


(** [s.split(sep)] for a one-character separator: the pieces between the
    separators, empty pieces included, at least one piece. *)
Fixpoint split_on (sep : Ascii.ascii) (s : string) : list string :=
  match s with
  | EmptyString => [EmptyString]
  | String c s' =>
      if Ascii.eqb c sep then EmptyString :: split_on sep s'
      else match split_on sep s' with
           | [] => [String c EmptyString]
           | piece :: pieces => String c piece :: pieces
           end
  end.


Section Main.

(** [float(s)] ([None] is [ValueError]) and [s.strip()] are the
    library's; the standard input is the list of the lines still to be
    read. *)
Variable float : string -> option Q.
Variable strip : string -> string.
Variable svc : Service.


(** Lines 417-422: the [for] loop over the names of the calibrators. *)
Fixpoint check_each (gaia_comp_check : bool) (names : list string)
    : list MainEvent * MainResult :=
  match names with
  | [] => ([], Returned)
  | target_star_name :: names =>
      let run := cal_checker svc target_star_name gaia_comp_check in
      match snd run with
      | inl a => (map Core (fst run), Stopped a)
      | inr _ =>
          let (log, result) := check_each gaia_comp_check names in
          (map Core (fst run) ++ log, result)
      end
  end.


End Main.

(** * Vocabulary of the statements *)

(** What the JSDC query of the discovery mode lets through. *)
Definition jsdc_find_accepts (row : JsdcRow) : bool :=
  passes_filters jsdc_column jsdc_column_filters row.

(** What the MDFC query of the discovery mode lets through. *)
Definition cruzalebes_find_accepts (row : CruzalebesRow) : bool :=
  passes_filters cruzalebes_column cruzalebes_column_filters row.

(** The point lost for Gaia companions (lines 264-267). *)
Definition companion_penalty (gaia_comp_check : bool) (table : list GaiaRow) : Z :=
  if (1 <? Z.of_nat (List.length table)) && gaia_comp_check then 1 else 0.

(** [l] never goes up, starting from [c]. *)
Fixpoint nonincreasing_from (c : Z) (l : list Z) : Prop :=
  match l with
  | [] => True
  | s :: l' => s <= c /\ nonincreasing_from s l'
  end.

(** What a piece of a run logs about the score, started at [c]: the score
    never goes up and loses at most [K] points. *)
Definition log_ok (K c : Z) (log : list Event) : Prop :=
  nonincreasing_from c (scores log) /\ c - K <= last (scores log) c.

(** A stage hands the last logged score on to the next one. *)
Definition stage_ok (K c : Z) (m : Run Z) : Prop :=
  log_ok K c (fst m) /\ forall c', snd m = inr c' -> c' = last (scores (fst m)) c.

(** The four catalogue stages of [cal_checker] and their penalties.  A
    stage has a hard-fail policy when its code holds a
    [check_pass_count -= 5] (lines 273 and 291 for Gaia, 309 for Kervella)
    and a soft-fail policy when it holds a [check_pass_count -= 1] (lines
    236 and 250; 267 and 285; 325; 339 and 351). *)
Inductive Stage := JsdcStage | GaiaStage | KervellaStage | CruzalebesStage.

Definition stages : list Stage := [JsdcStage; GaiaStage; KervellaStage; CruzalebesStage].

Definition hard_fail_policy (s : Stage) : bool :=
  match s with
  | GaiaStage | KervellaStage => true
  | JsdcStage | CruzalebesStage => false
  end.

Definition soft_fail_policy (s : Stage) : bool :=
  match s with
  | JsdcStage | GaiaStage | KervellaStage | CruzalebesStage => true
  end.

Definition score_floor (initial_total : Z) : Z :=
  initial_total
  - 5 * Z.of_nat (List.length (filter hard_fail_policy stages))
  - 1 * Z.of_nat (List.length (filter soft_fail_policy stages)).

Definition stage_run (s : Stage) (svc : Service) (name : string) (flag : bool)
    (c : Z) : Run Z :=
  match s with
  | JsdcStage => jsdc_check svc name c
  | GaiaStage => gaia_check svc name flag c
  | KervellaStage => kervella_check svc name c
  | CruzalebesStage => cruzalebes_check svc name c
  end.

(** The successive losses along a list of scores started at [c]. *)
Fixpoint drops (c : Z) (l : list Z) : list Z :=
  match l with
  | [] => []
  | s :: l' => (c - s) :: drops s l'
  end.

(** Every event of [log] is a query allowed by [P]. *)
Definition queries_only (P : RegionQuery -> Prop) (log : list Event) : Prop :=
  Forall (fun e => match e with Queried q => P q | _ => False end) log.

(** The shape of a discovery run: queries (allowed by [P]) and nothing
    else, then, only if the run reaches its end, the file and the closing
    line. *)
Definition finder_shape (P : RegionQuery -> Prop) (star_name : string)
    (run : Run unit) : Prop :=
  match snd run with
  | inl _ => queries_only P (fst run)
  | inr _ =>
      exists qs fcct,
        queries_only P qs
        /\ fst run =
             qs ++ [Wrote (output_file star_name) fcct;
                    Printed (if (0 <? List.length fcct)%nat
                             then FoundCalibrators (List.length fcct)
                             else FoundNoCalibrators)]
  end.







(** The queries of a log, in the order they were sent. *)
Fixpoint queries (log : list Event) : list RegionQuery :=
  match log with
  | [] => []
  | Queried q :: log' => q :: queries log'
  | _ :: log' => queries log'
  end.

(** The count a [Counter] holds for a value (0 when it has no entry). *)
Fixpoint counted (c : list (Z * nat)) (x : Z) : nat :=
  match c with
  | [] => 0%nat
  | (y, n) :: c' => if x =? y then n else counted c' x
  end.

(** A counter holds each value once, with a positive count. *)
Definition counter_ok (c : list (Z * nat)) : Prop :=
  NoDup (map fst c) /\ forall k n, In (k, n) c -> (0 < n)%nat.

(** Every change of the score along a log started at [c] is a loss of
    exactly 1 or exactly 5 points. *)
Definition losses_1_or_5 (c : Z) (log : list Event) : Prop :=
  Forall (fun d => d = 1 \/ d = 5) (drops c (scores log)).

(** The points lost in total. *)
Definition total_loss (ds : list Z) : Z := fold_right Z.add 0 ds.

(** Whether [cal_finder] runs its companion stage. *)
Definition companion_requested (gaia_comp_check : option Q) : bool :=
  match gaia_comp_check with
  | Some radius => truthy radius
  | None => false
  end.

(** The catalogues a discovery run has queried when it exits with a given
    message. *)
Definition catalogs_before (gaia_comp_check : option Q) (msg : ExitMessage)
    : list Catalog :=
  let neighbours :=
    if companion_requested gaia_comp_check then [GaiaDR3] else [] in
  match msg with
  | NotFoundInSimbad | OutsideDeclinationLimits | NotFoundInGaia => []
  | NoCalibratorsInJSDC => [JSDC]
  | NoCalibratorsInGaia => [JSDC; GaiaDR3]
  | NoCalibratorsInKervella => [JSDC; GaiaDR3] ++ neighbours ++ [Kervella]
  | NoCalibratorsInMDFC => [JSDC; GaiaDR3] ++ neighbours ++ [Kervella; MDFC]
  end.






(** * Sample catalogue answers *)

(** A service whose answers do not depend on the query. *)
Definition constant_service (simbad : list SimbadRow)
    (jsdc : list (list JsdcRow)) (gaia : list (list GaiaRow))
    (kervella : list (list KervellaRow)) (cruzalebes : list (list CruzalebesRow))
    : Service :=
  {| simbad_query_object := fun _ => simbad;
     vizier_jsdc := fun _ => jsdc;
     vizier_gaia := fun _ => gaia;
     vizier_kervella := fun _ => kervella;
     vizier_cruzalebes := fun _ => cruzalebes |}.

(** Candidates of the verification mode. *)
Definition row_V9 : JsdcRow :=
  {| j_RAJ2000 := 10; j_DEJ2000 := -10; j_Name := "HD 5678"; j_SpType := "K0III";
     j_Vmag := 9.0; j_Rmag := None; j_Hmag := 6.0; j_Kmag := None;
     j_UDDH := 0.3; j_UDDK := 0.3; j_r := 0 |}.

Definition star_ok : SimbadRow := {| s_ra := 10; s_dec := -10; s_V := 8.5 |}.

Definition svc_V9 : Service := constant_service [star_ok] [[row_V9]] [] [] [].

Definition row_IRflag1 : CruzalebesRow :=
  {| c_q := 1; c_Diam_GAIA := 0.3; c_CalFlag := 0; c_IRflag := 1 |}.

Definition svc_IRflag1 : Service :=
  constant_service [star_ok] [[row_V9]] [] [] [[row_IRflag1]].

Definition row_no_IPDfmp : GaiaRow :=
  {| g_q := 1; g_RAJ2000 := 10; g_DEJ2000 := -10;
     g_IPDfmp := None; g_RUWE := Some 1.2%Q; g_RVamp := None;
     g_Vbroad := Some 50%Q; g_r := 0 |}.

Definition row_no_Vbroad : GaiaRow :=
  {| g_q := 1; g_RAJ2000 := 10; g_DEJ2000 := -10;
     g_IPDfmp := Some 3%Q; g_RUWE := Some 2%Q; g_RVamp := None;
     g_Vbroad := None; g_r := 0 |}.

Definition svc_no_Vbroad : Service :=
  constant_service [star_ok] [[row_V9]] [[row_no_Vbroad]] [] [].

Definition row_binary : KervellaRow :=
  {| k_q := 1; k_RAJ2000 := 10; k_DEJ2000 := -10; k_Name := "HD 5678";
     k_DMS := 1; k_W := 0; k_BinH := 0; k_BinG2 := 0 |}.

(** A candidate that fails every check as badly as it can. *)
Definition row_faint : JsdcRow :=
  {| j_RAJ2000 := 10; j_DEJ2000 := -10; j_Name := "HD 5678"; j_SpType := "K0III";
     j_Vmag := 9.5; j_Rmag := None; j_Hmag := 7.0; j_Kmag := None;
     j_UDDH := 0.6; j_UDDK := 0.6; j_r := 0 |}.

Definition row_fast_rotator : GaiaRow :=
  {| g_q := 1; g_RAJ2000 := 10; g_DEJ2000 := -10;
     g_IPDfmp := Some 3%Q; g_RUWE := Some 2%Q; g_RVamp := None;
     g_Vbroad := Some 150%Q; g_r := 0 |}.

Definition row_flagged : CruzalebesRow :=
  {| c_q := 1; c_Diam_GAIA := 0.3; c_CalFlag := 1; c_IRflag := 7 |}.

Definition svc_worst : Service :=
  constant_service [star_ok] [[row_faint]] [[row_fast_rotator; row_no_IPDfmp]]
    [[row_binary]] [[row_flagged]].

Definition svc_nothing : Service := constant_service [star_ok] [] [] [] [].

(** The scenario of the specification: found in JSDC (V 8.5, H 6.0, UDDH
    0.45), Vbroad masked in Gaia, absent from Kervella; the MDFC record is
    clean. *)
Definition row_HD5678 : JsdcRow :=
  {| j_RAJ2000 := 10; j_DEJ2000 := -10; j_Name := "HD 5678"; j_SpType := "K0III";
     j_Vmag := 8.5; j_Rmag := None; j_Hmag := 6.0; j_Kmag := None;
     j_UDDH := 0.45; j_UDDK := 0.45; j_r := 0 |}.

Definition gaia_HD5678 : GaiaRow :=
  {| g_q := 1; g_RAJ2000 := 10; g_DEJ2000 := -10;
     g_IPDfmp := Some 1%Q; g_RUWE := Some 1.2%Q; g_RVamp := None;
     g_Vbroad := None; g_r := 0 |}.

Definition row_clean : CruzalebesRow :=
  {| c_q := 1; c_Diam_GAIA := 0.45; c_CalFlag := 0; c_IRflag := 0 |}.

Definition svc_HD5678 : Service :=
  constant_service [star_ok] [[row_HD5678]] [[gaia_HD5678]] [] [[row_clean]].

Definition log_HD5678 : list Event :=
  [Score 4; Queried (jsdc_check_query "HD 5678"); Printed PassesJSDC;
   Queried (gaia_check_query "HD 5678"); Printed NoVbroadWarning; Score (-1);
   Queried (kervella_check_query "HD 5678"); Printed NotInKervella; Score (-2);
   Queried (cruzalebes_check_query "HD 5678"); Printed PassesMDFC;
   Printed UnlikelyViable_SubmitToBadCal].

(** Rows that pass the filters of the discovery queries. *)
Definition jsdc_A : JsdcRow :=
  {| j_RAJ2000 := 11; j_DEJ2000 := -9; j_Name := "HD 1001"; j_SpType := "G8III";
     j_Vmag := 7.5; j_Rmag := None; j_Hmag := 5.5; j_Kmag := None;
     j_UDDH := 0.30; j_UDDK := 0.31; j_r := 1.2 |}.

Definition jsdc_B : JsdcRow :=
  {| j_RAJ2000 := 12; j_DEJ2000 := -11; j_Name := "HD 1002"; j_SpType := "K0III";
     j_Vmag := 8.0; j_Rmag := None; j_Hmag := 6.0; j_Kmag := None;
     j_UDDH := 0.25; j_UDDK := 0.26; j_r := 2.5 |}.

Definition jsdc_C : JsdcRow :=
  {| j_RAJ2000 := 13; j_DEJ2000 := -12; j_Name := "HD 1003"; j_SpType := "K2III";
     j_Vmag := 8.5; j_Rmag := None; j_Hmag := 6.2; j_Kmag := None;
     j_UDDH := 0.35; j_UDDK := 0.36; j_r := 3.5 |}.

Definition gaia_of (q : Z) (j : JsdcRow) : GaiaRow :=
  {| g_q := q; g_RAJ2000 := j_RAJ2000 j; g_DEJ2000 := j_DEJ2000 j;
     g_IPDfmp := Some 1%Q; g_RUWE := Some 1.0%Q; g_RVamp := None;
     g_Vbroad := Some 10%Q; g_r := 0 |}.

Definition kervella_of (q : Z) (ra de : Q) : KervellaRow :=
  {| k_q := q; k_RAJ2000 := ra; k_DEJ2000 := de; k_Name := "";
     k_DMS := 0; k_W := 0; k_BinH := 0; k_BinG2 := 0 |}.

Definition cruzalebes_of (q : Z) (diam : Q) : CruzalebesRow :=
  {| c_q := q; c_Diam_GAIA := diam; c_CalFlag := 0; c_IRflag := 0 |}.

(** One candidate survives every catalogue, but its Gaia diameter (0.5)
    is too far from UDDH (0.30). *)
Definition svc_inconsistent : Service :=
  constant_service [star_ok] [[jsdc_A]] [[gaia_of 1 jsdc_A]]
    [[kervella_of 1 11 (-9)]] [[cruzalebes_of 1 0.5]].

(** A service that cross-matches by position in the reference table: row
    [i] of the reference (counted from one) is matched to one catalogue
    row with [_q = i]; Gaia DR3 has no match for the first reference
    row. *)
Definition numbered (coords : list (Q * Q)) : list (Z * (Q * Q)) :=
  combine (map Z.of_nat (seq 1 (List.length coords))) coords.

Definition matched {A : Type} (f : Z -> Q -> Q -> A) (ref : Reference) : list A :=
  match ref with
  | ByName _ => []
  | ByRows coords => map (fun m => f (fst m) (fst (snd m)) (snd (snd m))) (numbered coords)
  end.

Definition gaia_at (q : Z) (ra de : Q) : GaiaRow :=
  {| g_q := q; g_RAJ2000 := ra; g_DEJ2000 := de;
     g_IPDfmp := Some 1%Q; g_RUWE := Some 1.0%Q; g_RVamp := None;
     g_Vbroad := Some 10%Q; g_r := 0 |}.

Definition svc_positional : Service :=
  {| simbad_query_object := fun _ => [star_ok];
     vizier_jsdc := fun _ => [[jsdc_A; jsdc_B; jsdc_C]];
     vizier_gaia := fun q => [tl (matched gaia_at (rq_reference q))];
     vizier_kervella := fun q => [matched kervella_of (rq_reference q)];
     vizier_cruzalebes :=
       fun q => [matched (fun i _ _ => cruzalebes_of i 0.3) (rq_reference q)] |}.

(** The same service, with a neighbour search that finds two Gaia sources
    around the first reference row and one around each of the others. *)
Definition neighbours_of (ref : Reference) : list GaiaRow :=
  match matched gaia_at ref with
  | [] => []
  | first :: others => first :: first :: others
  end.

Definition svc_companion : Service :=
  {| simbad_query_object := simbad_query_object svc_positional;
     vizier_jsdc := vizier_jsdc svc_positional;
     vizier_gaia :=
       fun q => match rq_row_limit q with
                | Some (-1) => [neighbours_of (rq_reference q)]
                | _ => vizier_gaia svc_positional q
                end;
     vizier_kervella := vizier_kervella svc_positional;
     vizier_cruzalebes := vizier_cruzalebes svc_positional |}.

(** A candidate that both modes accept. *)
Definition svc_good : Service :=
  constant_service [star_ok] [[jsdc_A]] [[gaia_of 1 jsdc_A]]
    [[kervella_of 1 11 (-9)]] [[cruzalebes_of 1 0.3]].

(** SIMBAD does not know "HD 0". *)
Definition svc_unknown_HD0 : Service :=
  {| simbad_query_object :=
       fun name => if String.eqb name "HD 0" then [] else [star_ok];
     vizier_jsdc := vizier_jsdc svc_good;
     vizier_gaia := vizier_gaia svc_good;
     vizier_kervella := vizier_kervella svc_good;
     vizier_cruzalebes := vizier_cruzalebes svc_good |}.

(** A star south of the declination limit, and one exactly on it. *)
Definition star_south : SimbadRow := {| s_ra := 10; s_dec := -30; s_V := 8.5 |}.
Definition star_on_limit : SimbadRow := {| s_ra := 10; s_dec := -25; s_V := 8.5 |}.

(** Two rows within 5 arcseconds in JSDC. *)
Definition svc_two_jsdc_rows : Service :=
  constant_service [star_ok] [[row_HD5678; row_V9]] [[gaia_HD5678]] [] [].




(** * Properties *)

(** ** Comparisons *)

Lemma Qgt_bool_true (a b : Q) : Qgt_bool a b = true <-> (b < a)%Q.
Proof.
  unfold Qgt_bool. rewrite negb_true_iff. split.
  - intro H. apply Qnot_le_lt. intro L. apply Qle_bool_iff in L. congruence.
  - intro H. destruct (Qle_bool a b) eqn:E; trivial.
    apply Qle_bool_iff in E. exfalso. exact (Qlt_not_le _ _ H E).
Qed.

Lemma Qgt_bool_false (a b : Q) : Qgt_bool a b = false <-> (a <= b)%Q.
Proof.
  unfold Qgt_bool. rewrite negb_false_iff. apply Qle_bool_iff.
Qed.

Lemma Qlt_bool_true (a b : Q) : Qlt_bool a b = true <-> (a < b)%Q.
Proof. exact (Qgt_bool_true b a). Qed.

Lemma Qlt_bool_false (a b : Q) : Qlt_bool a b = false <-> (b <= a)%Q.
Proof. exact (Qgt_bool_false b a). Qed.

Lemma inject_Z_eq_bool (a b : Z) : Qeq_bool (inject_Z a) (inject_Z b) = (a =? b).
Proof.
  unfold Qeq_bool. simpl. rewrite !Z.mul_1_r. reflexivity.
Qed.

(** ** Runs *)

Lemma bind_inr {A B : Type} (m : Run A) (k : A -> Run B) (log : list Event) (b : B) :
  bind m k = (log, inr b) ->
  exists l1 a l2, m = (l1, inr a) /\ k a = (l2, inr b) /\ log = l1 ++ l2.
Proof.
  destruct m as [l1 [e | a]]; simpl.
  - discriminate.
  - destruct (k a) as [l2 r] eqn:K. intro H. inversion H; subst.
    exists l1, a, l2. auto.
Qed.

Lemma bind_fst_snd {A B : Type} (m : Run A) (k : A -> Run B) :
  bind m k =
  match snd m with
  | inl e => (fst m, inl e)
  | inr a => (fst m ++ fst (k a), snd (k a))
  end.
Proof.
  destruct m as [l [e | a]]; simpl; trivial.
  destruct (k a); trivial.
Qed.

Lemma scores_app (l1 l2 : list Event) : scores (l1 ++ l2) = scores l1 ++ scores l2.
Proof.
  induction l1 as [| e l1 IH]; simpl; trivial.
  destruct e; simpl; rewrite ?IH; trivial.
Qed.

(** ** The diameter-catalogue predicate *)






(** ** The calibrator-suitability predicate *)

Lemma cruzalebes_fails_false (row : CruzalebesRow) :
  cruzalebes_fails row = false <-> c_CalFlag row = 0 /\ c_IRflag row <> 7.
Proof.
  unfold cruzalebes_fails.
  rewrite orb_false_iff, negb_false_iff, Z.eqb_eq, Z.eqb_neq. tauto.
Qed.

Lemma cruzalebes_check_found (svc : Service) (name : string) (c : Z)
    (row : CruzalebesRow) (tables : list (list CruzalebesRow)) :
  vizier_cruzalebes svc (cruzalebes_check_query name) = [row] :: tables ->
  snd (cruzalebes_check svc name c) =
  if cruzalebes_fails row then inr (c - 1) else inr c.
Proof.
  intro H. unfold cruzalebes_check, query_cruzalebes. simpl. rewrite H. simpl.
  destruct (cruzalebes_fails row); simpl; trivial.
  destruct (negb (c_CalFlag row =? 0)), (c_IRflag row =? 7); reflexivity.
Qed.

(** C5, as stated, fails in discovery mode: a record with CalFlag 0 and
    IRflag 1 satisfies "CalFlag = 0 and IRflag <> 7", yet the MDFC query of
    [cal_finder] filters it out (the verification mode lets it pass). *)
Lemma cruzalebes_find_rejects_IRflag_1 :
  cruzalebes_find_accepts row_IRflag1 = false
  /\ cruzalebes_fails row_IRflag1 = false
  /\ (c_CalFlag row_IRflag1 = 0 /\ c_IRflag row_IRflag1 <> 7).
Proof.
  repeat split; try reflexivity. discriminate.
Qed.

(** C5 (amended): the discovery-mode MDFC query keeps a record iff
    CalFlag = 0 and IRflag = 0; in verification mode a candidate found
    alone in MDFC passes the check (score unchanged) iff CalFlag = 0 and
    IRflag <> 7, and loses exactly one point otherwise. *)
Theorem cruzalebes_stage_predicate (svc : Service) (name : string) (c : Z)
    (row : CruzalebesRow) (tables : list (list CruzalebesRow)) :
  vizier_cruzalebes svc (cruzalebes_check_query name) = [row] :: tables ->
  (cruzalebes_find_accepts row = true <-> c_CalFlag row = 0 /\ c_IRflag row = 0)
  /\ (snd (cruzalebes_check svc name c) = inr c <->
        c_CalFlag row = 0 /\ c_IRflag row <> 7)
  /\ (snd (cruzalebes_check svc name c) = inr c
      \/ snd (cruzalebes_check svc name c) = inr (c - 1)).
Proof.
  intro H. split; [| split].
  - unfold cruzalebes_find_accepts, passes_filters, cruzalebes_column_filters.
    simpl. rewrite !andb_true_iff.
    change 0%Q with (inject_Z 0). rewrite !inject_Z_eq_bool, !Z.eqb_eq. tauto.
  - rewrite (cruzalebes_check_found _ _ _ _ _ H), <- cruzalebes_fails_false.
    destruct (cruzalebes_fails row); split; intro E; try congruence.
    inversion E. lia.
  - rewrite (cruzalebes_check_found _ _ _ _ _ H).
    destruct (cruzalebes_fails row); auto.
Qed.

Lemma cruzalebes_stage_predicate_witness :
  vizier_cruzalebes svc_IRflag1 (cruzalebes_check_query "HD 5678") = [row_IRflag1] :: []
  /\ snd (cruzalebes_check svc_IRflag1 "HD 5678" 4) = inr 4.
Proof.
  split.
  - reflexivity.
  - apply (cruzalebes_stage_predicate svc_IRflag1 "HD 5678" 4 row_IRflag1 []).
    + reflexivity.
    + split; [reflexivity | discriminate].
Defined.

(** ** Masked values in the Gaia stage *)

(** The Gaia thresholds on a row whose Vbroad is masked. *)
Lemma gaia_threshold_checks_masked (row : GaiaRow) (c : Z) :
  g_Vbroad row = None ->
  gaia_threshold_checks row c =
    ([Printed NoVbroadWarning; Score (c - 5)], inr (c - 5)).
Proof.
  intro H. unfold gaia_threshold_checks. rewrite H. reflexivity.
Qed.

(** The Gaia thresholds on a row whose Vbroad is listed. *)
Lemma gaia_threshold_checks_listed (row : GaiaRow) (c : Z) (v : Q) :
  g_Vbroad row = Some v ->
  snd (gaia_threshold_checks row c) =
  if gaia_fails row then
    (if Qgt_bool v 100 then inr (c - 1 - 5) else inr (c - 1))
  else inr c.
Proof.
  intro H. unfold gaia_threshold_checks. rewrite H. simpl.
  destruct (gaia_fails row); simpl; trivial.
  destruct (above (g_IPDfmp row) 2), (above (g_RUWE row) 1.4),
    (Qgt_bool v 100); reflexivity.
Qed.

Lemma gaia_fails_false (row : GaiaRow) :
  gaia_fails row = false <->
  (forall x, g_IPDfmp row = Some x -> x <= 2)%Q
  /\ (forall x, g_RUWE row = Some x -> x <= 1.4)%Q
  /\ (forall x, g_Vbroad row = Some x -> x <= 100)%Q.
Proof.
  unfold gaia_fails. rewrite !orb_false_iff.
  assert (G : forall (o : option Q) (t : Q),
             negb (is_masked o) && above o t = false <->
             (forall x, o = Some x -> x <= t)%Q).
  { intros [x |] t; simpl.
    - rewrite Qgt_bool_false. split.
      + intros L y E. inversion E; subst. exact L.
      + intro A. apply A. reflexivity.
    - split; [discriminate | trivial]. }
  rewrite !G. tauto.
Qed.

(** C2, as stated, fails for IPDfmp (and likewise RUWE): a Gaia row whose
    IPDfmp is masked, with RUWE 1.2 and Vbroad 50, is reported as passing
    the Gaia checks and costs no point. *)
Lemma masked_IPDfmp_counts_as_passing :
  g_IPDfmp row_no_IPDfmp = None
  /\ gaia_threshold_checks row_no_IPDfmp 4 = ([Printed PassesGaia], inr 4).
Proof.
  split; reflexivity.
Qed.

(** C2 (amended): a masked Vbroad never satisfies the Vbroad threshold: it
    is routed to the absence branch and costs 5 points, whatever the other
    columns hold.  A masked IPDfmp or RUWE is skipped by the
    [is not np.ma.masked] guard: with Vbroad listed, the Gaia thresholds
    pass (score unchanged) iff every listed value among IPDfmp, RUWE and
    Vbroad is at most 2, 1.4 and 100. *)
Theorem masked_values_in_gaia_checks (row : GaiaRow) (c : Z) :
  (g_Vbroad row = None ->
     gaia_threshold_checks row c =
       ([Printed NoVbroadWarning; Score (c - 5)], inr (c - 5)))
  /\ (forall v, g_Vbroad row = Some v ->
        (snd (gaia_threshold_checks row c) = inr c <->
           (forall x, g_IPDfmp row = Some x -> x <= 2)%Q
           /\ (forall x, g_RUWE row = Some x -> x <= 1.4)%Q
           /\ (v <= 100)%Q)).
Proof.
  split.
  - apply gaia_threshold_checks_masked.
  - intros v H. rewrite (gaia_threshold_checks_listed _ _ _ H).
    assert (V : (forall x, g_Vbroad row = Some x -> x <= 100)%Q <-> (v <= 100)%Q).
    { rewrite H. split.
      - intro A. apply A. reflexivity.
      - intros L x E. inversion E; subst. exact L. }
    rewrite <- V, <- gaia_fails_false.
    destruct (gaia_fails row); [| tauto].
    destruct (Qgt_bool v 100); split; intro E; try congruence; inversion E; lia.
Qed.

Lemma masked_values_in_gaia_checks_witness :
  gaia_threshold_checks row_no_Vbroad 4 =
    ([Printed NoVbroadWarning; Score (-1)], inr (-1))
  /\ snd (gaia_threshold_checks row_no_IPDfmp 4) = inr 4.
Proof.
  split.
  - apply (masked_values_in_gaia_checks row_no_Vbroad 4). reflexivity.
  - apply (proj2 (masked_values_in_gaia_checks row_no_IPDfmp 4) 50%Q eq_refl).
    split; [discriminate |]. split.
    + intros x E. inversion E; subst. vm_compute. discriminate.
    + vm_compute. discriminate.
Defined.

Lemma gaia_companion_warning_result (flag : bool) (table : list GaiaRow) (c : Z) :
  snd (gaia_companion_warning flag table c) = inr (c - companion_penalty flag table)
  /\ forall m, In (Printed m) (fst (gaia_companion_warning flag table c)) ->
               m = GaiaCompanionsWarning.
Proof.
  unfold gaia_companion_warning, companion_penalty.
  destruct (1 <? Z.of_nat (List.length table)); simpl.
  - destruct flag; simpl.
    + split; trivial. intros m [E | [E | []]]; congruence.
    + split; [f_equal; lia |]. intros m [E | []]; congruence.
  - split; [f_equal; lia |]. intros m [].
Qed.

(** C9: when the Vbroad of the first Gaia row is masked, the Gaia stage
    takes the 5-point absence penalty and never looks at the IPDfmp and
    RUWE thresholds: apart from the companion point of lines 264-267 the
    score drops by exactly 5, and neither the stage-failure line nor its
    1-point penalty occurs, whatever IPDfmp and RUWE hold. *)
Theorem masked_vbroad_skips_thresholds (svc : Service) (name : string)
    (flag : bool) (c : Z) (row : GaiaRow) (rest : list GaiaRow)
    (tables : list (list GaiaRow)) :
  vizier_gaia svc (gaia_check_query name) = (row :: rest) :: tables ->
  g_Vbroad row = None ->
  snd (gaia_check svc name flag c) = inr (c - companion_penalty flag (row :: rest) - 5)
  /\ (rest = [] -> snd (gaia_check svc name flag c) = inr (c - 5))
  /\ ~ In (Printed FailsGaia) (fst (gaia_check svc name flag c))
  /\ ~ In (Printed IPDfmpAbove2) (fst (gaia_check svc name flag c))
  /\ ~ In (Printed RUWEAbove1_4) (fst (gaia_check svc name flag c)).
Proof.
  intros H V.
  destruct (gaia_companion_warning_result flag (row :: rest) c) as [R P].
  assert (E : gaia_check svc name flag c =
              (Queried (gaia_check_query name)
                 :: fst (gaia_companion_warning flag (row :: rest) c)
                 ++ [Printed NoVbroadWarning;
                     Score (c - companion_penalty flag (row :: rest) - 5)],
               inr (c - companion_penalty flag (row :: rest) - 5))).
  { unfold gaia_check, query_gaia. simpl bind at 2. rewrite H.
    cbn [bind app]. rewrite bind_fst_snd, R.
    rewrite (gaia_threshold_checks_masked _ _ V). reflexivity. }
  rewrite E. cbn [fst snd].
  assert (N : forall m, m <> GaiaCompanionsWarning -> m <> NoVbroadWarning ->
              ~ In (Printed m)
                  (Queried (gaia_check_query name)
                     :: fst (gaia_companion_warning flag (row :: rest) c)
                     ++ [Printed NoVbroadWarning;
                         Score (c - companion_penalty flag (row :: rest) - 5)])).
  { intros m M1 M2 [I | I]; [discriminate |].
    apply in_app_or in I. destruct I as [I | [I | [I | []]]].
    - apply M1, P, I.
    - congruence.
    - discriminate. }
  split; [reflexivity |]. split.
  - intros ->. unfold companion_penalty. simpl. f_equal. lia.
  - repeat split; apply N; discriminate.
Qed.

Lemma masked_vbroad_skips_thresholds_witness :
  snd (gaia_check svc_no_Vbroad "HD 5678" false 4) = inr (-1).
Proof.
  apply (masked_vbroad_skips_thresholds svc_no_Vbroad "HD 5678" false 4
           row_no_Vbroad [] []); reflexivity.
Defined.

(** ** The running score *)

Lemma last_cons_default (s c : Z) (l : list Z) : last (s :: l) c = last l s.
Proof.
  revert s c. induction l as [| s' l IH]; intros s c; trivial.
  change (last (s :: s' :: l) c) with (last (s' :: l) c).
  rewrite (IH s' c). symmetry. apply IH.
Qed.

Lemma nonincreasing_from_app (c : Z) (l1 l2 : list Z) :
  nonincreasing_from c l1 -> nonincreasing_from (last l1 c) l2 ->
  nonincreasing_from c (l1 ++ l2).
Proof.
  revert c. induction l1 as [| s l1 IH]; intros c H1 H2; trivial.
  destruct H1 as [L H1]. split; trivial. apply IH; trivial.
  rewrite <- (last_cons_default s c l1). exact H2.
Qed.

Lemma last_app_default (l1 l2 : list Z) (c : Z) :
  last (l1 ++ l2) c = last l2 (last l1 c).
Proof.
  revert c. induction l1 as [| s l1 IH]; intro c; trivial.
  change ((s :: l1) ++ l2) with (s :: (l1 ++ l2)).
  rewrite !last_cons_default. apply IH.
Qed.

Lemma nonincreasing_from_last (c : Z) (l : list Z) :
  nonincreasing_from c l -> last l c <= c.
Proof.
  revert c. induction l as [| s l IH]; intros c H; [simpl; lia |].
  destruct H as [L H]. rewrite last_cons_default.
  specialize (IH s H). lia.
Qed.

Lemma nonincreasing_from_floor (c b : Z) (l : list Z) :
  nonincreasing_from c l -> b <= last l c -> Forall (fun s => b <= s <= c) l.
Proof.
  revert c. induction l as [| s l IH]; intros c H B; constructor.
  - destruct H as [L H]. pose proof (nonincreasing_from_last s l H) as M.
    rewrite last_cons_default in B. lia.
  - destruct H as [L H]. rewrite last_cons_default in B.
    specialize (IH s H B). eapply Forall_impl; [| exact IH].
    simpl. intros a Ha. lia.
Qed.

Lemma log_ok_bind {B : Type} (K1 K2 c : Z) (m : Run Z) (k : Z -> Run B) :
  0 <= K2 ->
  stage_ok K1 c m ->
  (forall c', c - K1 <= c' <= c -> log_ok K2 c' (fst (k c'))) ->
  log_ok (K1 + K2) c (fst (bind m k)).
Proof.
  intros P [[M1 B1] R] Hk. rewrite bind_fst_snd.
  destruct (snd m) as [e | c'] eqn:S; cbn [fst].
  - split; [exact M1 | lia].
  - specialize (R c' eq_refl). pose proof (nonincreasing_from_last _ _ M1) as U.
    destruct (Hk c' ltac:(lia)) as [M2 B2].
    unfold log_ok. rewrite scores_app. split.
    + apply nonincreasing_from_app; [exact M1 | rewrite <- R; exact M2].
    + rewrite last_app_default, <- R. lia.
Qed.

Lemma stage_ok_bind (K1 K2 c : Z) (m : Run Z) (k : Z -> Run Z) :
  0 <= K2 ->
  stage_ok K1 c m ->
  (forall c', c - K1 <= c' <= c -> stage_ok K2 c' (k c')) ->
  stage_ok (K1 + K2) c (bind m k).
Proof.
  intros P M Hk. split.
  - apply log_ok_bind; trivial. intros c' C. apply Hk, C.
  - destruct M as [[M1 B1] R]. rewrite bind_fst_snd.
    destruct (snd m) as [e | c'] eqn:S; cbn [fst snd]; [discriminate |].
    specialize (R c' eq_refl). pose proof (nonincreasing_from_last _ _ M1) as U.
    destruct (Hk c' ltac:(lia)) as [_ R2]. intros c'' E.
    rewrite scores_app, last_app_default, <- R. apply R2, E.
Qed.

Ltac stage_cases :=
  repeat match goal with
         | |- context [if ?b then _ else _] => destruct b; cbn
         | |- context [when ?b _] => destruct b; cbn
         end.

Ltac stage_solve :=
  cbn; stage_cases; unfold stage_ok, log_ok; cbn;
  repeat split; try lia; intros; try congruence.

Lemma jsdc_check_ok (svc : Service) (name : string) (c : Z) :
  stage_ok 1 c (jsdc_check svc name c).
Proof.
  unfold jsdc_check, query_jsdc.
  destruct (vizier_jsdc svc (jsdc_check_query name)) as [| [| row [| row' t]] ts];
    stage_solve.
Qed.

Lemma gaia_companion_warning_ok (flag : bool) (table : list GaiaRow) (c : Z) :
  stage_ok 1 c (gaia_companion_warning flag table c).
Proof.
  unfold gaia_companion_warning. destruct flag; stage_solve.
Qed.

Lemma gaia_threshold_checks_ok (row : GaiaRow) (c : Z) :
  stage_ok 6 c (gaia_threshold_checks row c).
Proof.
  unfold gaia_threshold_checks. stage_solve.
Qed.

Lemma gaia_check_ok (svc : Service) (name : string) (flag : bool) (c : Z) :
  stage_ok 7 c (gaia_check svc name flag c).
Proof.
  unfold gaia_check, query_gaia.
  destruct (vizier_gaia svc (gaia_check_query name)) as [| table ts]; [stage_solve |].
  cbn [bind tell ret app]. 
  assert (G : stage_ok (1 + 6) c
                (bind (gaia_companion_warning flag table c)
                   (fun c' => match table with
                              | [] => abort (IndexError 271)
                              | row :: _ => gaia_threshold_checks row c'
                              end))).
  { apply stage_ok_bind; [lia | apply gaia_companion_warning_ok |].
    intros c' _. destruct table as [| row rest].
    - stage_solve.
    - apply gaia_threshold_checks_ok. }
  destruct (bind (gaia_companion_warning flag table c) _) as [l r].
  exact G.
Qed.

Lemma kervella_check_ok (svc : Service) (name : string) (c : Z) :
  stage_ok 5 c (kervella_check svc name c).
Proof.
  unfold kervella_check, query_kervella.
  destruct (vizier_kervella svc (kervella_check_query name))
    as [| [| row [| row' t]] ts]; stage_solve.
Qed.

Lemma cruzalebes_check_ok (svc : Service) (name : string) (c : Z) :
  stage_ok 1 c (cruzalebes_check svc name c).
Proof.
  unfold cruzalebes_check, query_cruzalebes.
  destruct (vizier_cruzalebes svc (cruzalebes_check_query name))
    as [| [| row [| row' t]] ts]; stage_solve.
Qed.

Lemma resolve_log (svc : Service) (name : string) : fst (resolve svc name) = [].
Proof.
  unfold resolve. destruct (simbad_query_object svc name) as [| star t]; trivial.
  destruct (Qle_bool (s_dec star) (-25)); trivial.
Qed.

Lemma print_log_ok (c : Z) (m : Message) : log_ok 0 c (fst (print m)).
Proof.
  unfold log_ok. simpl. split; [trivial | lia].
Qed.

Lemma checks_log_ok (svc : Service) (name : string) (flag : bool) (init c : Z) :
  log_ok 14 c
    (fst (c1 <- jsdc_check svc name c ;;
          c2 <- gaia_check svc name flag c1 ;;
          c3 <- kervella_check svc name c2 ;;
          c4 <- cruzalebes_check svc name c3 ;;
          print (classification c4 init))).
Proof.
  change 14 with (1 + (7 + (5 + (1 + 0)))).
  apply log_ok_bind; [lia | apply jsdc_check_ok |]. intros c1 _.
  apply log_ok_bind; [lia | apply gaia_check_ok |]. intros c2 _.
  apply log_ok_bind; [lia | apply kervella_check_ok |]. intros c3 _.
  apply log_ok_bind; [lia | apply cruzalebes_check_ok |]. intros c4 _.
  apply print_log_ok.
Qed.

(** C6: in every run of the verification mode, whatever the catalogues
    answer, the logged values of [check_pass_count] never go up, and every
    one of them, the final one included, stays between the initial total
    and the initial total minus 5 per stage with a hard-fail policy (Gaia,
    Kervella) minus 1 per stage with a soft-fail policy (all four). *)
Theorem score_monotone_and_bounded (svc : Service) (name : string) (flag : bool) :
  let init := init_check_pass_count flag in
  let log := fst (cal_checker svc name flag) in
  nonincreasing_from init (scores log)
  /\ Forall (fun s => score_floor init <= s <= init) (scores log)
  /\ score_floor init <= last (scores log) init <= init.
Proof.
  intros init log.
  assert (F : score_floor init = init - 14) by (unfold score_floor; simpl; lia).
  assert (H : nonincreasing_from init (scores log)
              /\ init - 14 <= last (scores log) init).
  { subst log. unfold cal_checker. fold init.
    rewrite bind_fst_snd, resolve_log.
    destruct (snd (resolve svc name)) as [e | star]; cbn [fst app].
    - simpl. split; [trivial | lia].
    - rewrite bind_fst_snd. cbn [tell fst snd app scores].
      destruct (checks_log_ok svc name flag init init) as [M B].
      split.
      + simpl. split; [lia | exact M].
      + rewrite last_cons_default. exact B. }
  destruct H as [M B]. rewrite F. split; [exact M |]. split.
  - apply nonincreasing_from_floor; trivial.
  - split; [exact B | apply nonincreasing_from_last, M].
Qed.

(** The policy table agrees with the stages: JSDC and MDFC only ever take
    one point at a time, Gaia and Kervella can take five. *)
Lemma jsdc_drops (svc : Service) (name : string) (c d : Z) :
  In d (drops c (scores (fst (jsdc_check svc name c)))) -> d = 1.
Proof.
  unfold jsdc_check, query_jsdc.
  destruct (vizier_jsdc svc (jsdc_check_query name)) as [| [| row [| row' t]] ts];
    cbn; stage_cases; intros I; repeat destruct I as [I | I]; try lia; try contradiction.
Qed.

Lemma cruzalebes_drops (svc : Service) (name : string) (c d : Z) :
  In d (drops c (scores (fst (cruzalebes_check svc name c)))) -> d = 1.
Proof.
  unfold cruzalebes_check, query_cruzalebes.
  destruct (vizier_cruzalebes svc (cruzalebes_check_query name))
    as [| [| row [| row' t]] ts];
    cbn; stage_cases; intros I; repeat destruct I as [I | I]; try lia; try contradiction.
Qed.

Lemma hard_fail_policy_spec (s : Stage) :
  hard_fail_policy s = true <->
  exists svc name flag c, In 5 (drops c (scores (fst (stage_run s svc name flag c)))).
Proof.
  split.
  - destruct s; try discriminate; intros _.
    + exists (constant_service [] [] [[row_no_Vbroad]] [] []), "HD 5678", false, 4.
      vm_compute. auto.
    + exists (constant_service [] [] [] [[row_binary]] []), "HD 5678", false, 4.
      vm_compute. auto.
  - intros (svc & name & flag & c & I). destruct s; trivial; simpl in I.
    + apply jsdc_drops in I. discriminate.
    + apply cruzalebes_drops in I. discriminate.
Qed.

Lemma soft_fail_policy_spec (s : Stage) :
  soft_fail_policy s = true <->
  exists svc name flag c, In 1 (drops c (scores (fst (stage_run s svc name flag c)))).
Proof.
  split; [intros _ | destruct s; trivial].
  exists (constant_service [] [] [[row_no_Vbroad; row_no_Vbroad]] [] []), "HD 5678", true, 4.
  destruct s; vm_compute; auto.
Qed.

Example worst_case_scores :
  scores (fst (cal_checker svc_worst "HD 5678" true)) = [5; 4; 3; 2; -3; -8; -9]
  /\ score_floor 5 = -9.
Proof. split; reflexivity. Qed.

(** ** Catalogue non-detections *)

Lemma jsdc_check_queries (svc : Service) (name : string) (c : Z) (q : RegionQuery) :
  In (Queried q) (fst (jsdc_check svc name c)) -> q = jsdc_check_query name.
Proof.
  unfold jsdc_check, query_jsdc.
  destruct (vizier_jsdc svc (jsdc_check_query name)) as [| [| row [| row' t]] ts];
    cbn; stage_cases; intros I; repeat destruct I as [I | I];
    try congruence; try contradiction.
Qed.

Lemma gaia_check_not_found (svc : Service) (name : string) (flag : bool) (c : Z) :
  vizier_gaia svc (gaia_check_query name) = [] ->
  gaia_check svc name flag c =
    ([Queried (gaia_check_query name)], inl (SysExit NotFoundInGaia)).
Proof.
  intro H. unfold gaia_check, query_gaia. simpl. rewrite H. reflexivity.
Qed.

(** C3, as stated, fails at the Gaia stage: when Gaia DR3 returns nothing
    the run exits at line 260; no point is taken and the Kervella and MDFC
    catalogues are never queried. *)
Lemma gaia_nondetection_terminates :
  vizier_gaia svc_V9 (gaia_check_query "HD 5678") = []
  /\ cal_checker svc_V9 "HD 5678" false =
       ([Score 4; Queried (jsdc_check_query "HD 5678"); Printed PassesJSDC;
         Queried (gaia_check_query "HD 5678")],
        inl (SysExit NotFoundInGaia)).
Proof.
  split; reflexivity.
Qed.

(** C3 (amended): in verification mode a non-detection in JSDC, in
    Kervella or in MDFC takes exactly 1 point and the stage hands the score
    on to the next one; a non-detection in Gaia DR3 takes no point and
    terminates the run: [cal_checker] exits and queries no further
    catalogue. *)
Theorem nondetection_policy (svc : Service) (name : string) (flag : bool) (c : Z) :
  (vizier_jsdc svc (jsdc_check_query name) = [] ->
     jsdc_check svc name c =
       ([Queried (jsdc_check_query name); Printed NotInJSDC; Score (c - 1)],
        inr (c - 1)))
  /\ (vizier_kervella svc (kervella_check_query name) = [] ->
        kervella_check svc name c =
          ([Queried (kervella_check_query name); Printed NotInKervella; Score (c - 1)],
           inr (c - 1)))
  /\ (vizier_cruzalebes svc (cruzalebes_check_query name) = [] ->
        cruzalebes_check svc name c =
          ([Queried (cruzalebes_check_query name); Printed NotInMDFC; Score (c - 1)],
           inr (c - 1)))
  /\ (vizier_gaia svc (gaia_check_query name) = [] ->
        gaia_check svc name flag c =
          ([Queried (gaia_check_query name)], inl (SysExit NotFoundInGaia))
        /\ snd (cal_checker svc name flag) <> inr tt
        /\ forall q, In (Queried q) (fst (cal_checker svc name flag)) ->
                     rq_catalog q = JSDC \/ rq_catalog q = GaiaDR3).
Proof.
  split; [| split; [| split]].
  - intro H. unfold jsdc_check, query_jsdc. simpl. rewrite H. reflexivity.
  - intro H. unfold kervella_check, query_kervella. simpl. rewrite H. reflexivity.
  - intro H. unfold cruzalebes_check, query_cruzalebes. simpl. rewrite H. reflexivity.
  - intro H. split; [apply gaia_check_not_found, H |].
    unfold cal_checker. rewrite bind_fst_snd, resolve_log.
    destruct (snd (resolve svc name)) as [e | star]; cbn [fst snd app].
    + split; [discriminate | intros q []].
    + rewrite bind_fst_snd. cbn [tell fst snd app].
      rewrite bind_fst_snd.
      pose proof (jsdc_check_queries svc name (init_check_pass_count flag)) as Q.
      destruct (jsdc_check svc name (init_check_pass_count flag)) as [l1 [e | c1]];
        cbn [fst snd] in *.
      * split; [discriminate |]. intros q [I | I]; [discriminate |].
        left. rewrite (Q q I). reflexivity.
      * rewrite bind_fst_snd, (gaia_check_not_found _ _ _ _ H). cbn [fst snd].
        split; [discriminate |]. intros q [I | I]; [discriminate |].
        apply in_app_or in I. destruct I as [I | [I | []]].
        -- left. rewrite (Q q I). reflexivity.
        -- right. inversion I. reflexivity.
Qed.

Lemma nondetection_policy_witness :
  jsdc_check svc_nothing "HD 5678" 4 =
    ([Queried (jsdc_check_query "HD 5678"); Printed NotInJSDC; Score 3], inr 3)
  /\ snd (cal_checker svc_nothing "HD 5678" false) <> inr tt.
Proof.
  split.
  - apply (nondetection_policy svc_nothing "HD 5678" false 4). reflexivity.
  - apply (nondetection_policy svc_nothing "HD 5678" false 4). reflexivity.
Defined.

(** ** The final classification *)

Lemma classification_spec (score total : Z) :
  (classification score total = IdealCalibrator <->
     (pass_ratio score total == 1)%Q)
  /\ (classification score total = UsableCalibrator <->
        (0.7 <= pass_ratio score total /\ pass_ratio score total < 1)%Q)
  /\ (classification score total = UnlikelyViable_SubmitToBadCal <->
        ~ (pass_ratio score total == 1)%Q
        /\ ~ (0.7 <= pass_ratio score total /\ pass_ratio score total < 1)%Q).
Proof.
  unfold classification. cbv zeta. set (r := pass_ratio score total).
  pose proof (Qeq_bool_iff r 1) as E.
  pose proof (Qlt_bool_true r 1) as L.
  pose proof (Qle_bool_iff 0.7 r) as G.
  assert (X : (r == 1 -> r < 1 -> False)%Q).
  { intros Q1 Q2. rewrite Q1 in Q2. discriminate Q2. }
  destruct (Qeq_bool r 1), (Qlt_bool r 1), (Qle_bool 0.7 r); simpl;
    (split; [| split]); split; intros;
    intuition (try discriminate; try congruence).
Qed.

Lemma checks_final_score (svc : Service) (name : string) (flag : bool)
    (init c : Z) (log : list Event) :
  (c1 <- jsdc_check svc name c ;;
   c2 <- gaia_check svc name flag c1 ;;
   c3 <- kervella_check svc name c2 ;;
   c4 <- cruzalebes_check svc name c3 ;;
   print (classification c4 init)) = (log, inr tt) ->
  exists log', log = log' ++ [Printed (classification (last (scores log) c) init)].
Proof.
  intro H.
  apply bind_inr in H. destruct H as (l1 & c1 & r1 & E1 & H & ->).
  apply bind_inr in H. destruct H as (l2 & c2 & r2 & E2 & H & ->).
  apply bind_inr in H. destruct H as (l3 & c3 & r3 & E3 & H & ->).
  apply bind_inr in H. destruct H as (l4 & c4 & r4 & E4 & H & ->).
  inversion H; subst r4; clear H.
  pose proof (proj2 (jsdc_check_ok svc name c) c1) as R1.
  pose proof (proj2 (gaia_check_ok svc name flag c1) c2) as R2.
  pose proof (proj2 (kervella_check_ok svc name c2) c3) as R3.
  pose proof (proj2 (cruzalebes_check_ok svc name c3) c4) as R4.
  rewrite E1 in R1. rewrite E2 in R2. rewrite E3 in R3. rewrite E4 in R4.
  cbn [fst snd] in *.
  specialize (R1 eq_refl). specialize (R2 eq_refl).
  specialize (R3 eq_refl). specialize (R4 eq_refl).
  exists (l1 ++ l2 ++ l3 ++ l4).
  rewrite !scores_app, !last_app_default. simpl scores. simpl last.
  rewrite <- R1, <- R2, <- R3, <- R4.
  rewrite <- !app_assoc. reflexivity.
Qed.



(** With a total of 4 or 5 "usable" means one point lost, no more. *)
Lemma usable_iff_one_point_lost (flag : bool) (score : Z) :
  classification score (init_check_pass_count flag) = UsableCalibrator <->
  score = init_check_pass_count flag - 1.
Proof.
  rewrite (proj1 (proj2 (classification_spec _ _))).
  unfold pass_ratio, Qle, Qlt, Qdiv, Qmult, Qinv.
  destruct flag; simpl; lia.
Qed.

(** ** Discovery mode: what a run logs *)

Lemma bind_inv {A B : Type} (m : Run A) (k : A -> Run B) (log : list Event)
    (out : Abort + B) :
  bind m k = (log, out) ->
  (exists e, m = (log, inl e) /\ out = inl e)
  \/ (exists l1 a l2, m = (l1, inr a) /\ k a = (l2, out) /\ log = l1 ++ l2).
Proof.
  destruct m as [l1 [e | a]]; simpl.
  - intro H. inversion H; subst. left. exists e. auto.
  - destruct (k a) as [l2 r] eqn:K. intro H. inversion H; subst.
    right. exists l1, a, l2. auto.
Qed.

Lemma finder_shape_bind {A : Type} (P : RegionQuery -> Prop) (name : string)
    (m : Run A) (k : A -> Run unit) :
  queries_only P (fst m) ->
  (forall a, finder_shape P name (k a)) ->
  finder_shape P name (bind m k).
Proof.
  intros Q K. unfold finder_shape. rewrite bind_fst_snd.
  destruct (snd m) as [e | a]; cbn [fst snd]; trivial.
  specialize (K a). unfold finder_shape in K.
  destruct (snd (k a)) as [e | u].
  - apply Forall_app. auto.
  - destruct K as (qs & fcct & Q' & E). exists (fst m ++ qs), fcct. split.
    + apply Forall_app. auto.
    + rewrite E, app_assoc. reflexivity.
Qed.

Lemma resolve_quiet (P : RegionQuery -> Prop) (svc : Service) (name : string) :
  queries_only P (fst (resolve svc name)).
Proof. rewrite resolve_log. constructor. Qed.

Lemma first_table_quiet {A : Type} (P : RegionQuery -> Prop)
    (result : list (list A)) (msg : ExitMessage) :
  queries_only P (fst (first_table result msg)).
Proof. destruct result; constructor. Qed.

Lemma select_rows_quiet {A : Type} (P : RegionQuery -> Prop) (line : nat)
    (tbl : list A) (ind : list Z) :
  queries_only P (fst (select_rows line tbl ind)).
Proof. unfold select_rows. destruct (take_rows tbl ind); constructor. Qed.

Lemma query_quiet (P : RegionQuery -> Prop) (q : RegionQuery) :
  P q -> queries_only P [Queried q].
Proof. intro H. repeat constructor. exact H. Qed.

Lemma companion_exclusion_quiet (P : RegionQuery -> Prop) (svc : Service)
    (gaia_comp_check : option Q) (gaia_result : list GaiaRow) :
  (forall radius, gaia_comp_check = Some radius -> truthy radius = true ->
                  P (neighbors_query gaia_result radius)) ->
  queries_only P (fst (companion_exclusion svc gaia_comp_check gaia_result)).
Proof.
  intro H. unfold companion_exclusion.
  destruct gaia_comp_check as [radius |]; [| constructor].
  destruct (truthy radius) eqn:T; [| constructor].
  unfold query_gaia. cbn.
  destruct (vizier_gaia svc (neighbors_query gaia_result radius)) as [| nb ts]; cbn.
  - apply query_quiet. auto.
  - destruct (removal_list (map g_q nb)); cbn; apply query_quiet; auto.
Qed.

Lemma cal_finder_shape (P : RegionQuery -> Prop) (svc : Service) (name : string)
    (gaia_comp_check : option Q) :
  P (jsdc_find_query name) ->
  (forall t, P (gaia_find_query t)) ->
  (forall t, P (kervella_find_query t)) ->
  (forall t, P (cruzalebes_find_query t)) ->
  (forall t radius, gaia_comp_check = Some radius -> truthy radius = true ->
                    P (neighbors_query t radius)) ->
  finder_shape P name (cal_finder svc name gaia_comp_check).
Proof.
  intros PJ PG PK PC PN. unfold cal_finder.
  apply finder_shape_bind; [apply resolve_quiet |]. intros _.
  apply finder_shape_bind; [apply query_quiet, PJ |]. intro jmmc_result.
  apply finder_shape_bind; [apply first_table_quiet |]. intro jmmc.
  apply finder_shape_bind; [apply query_quiet, PG |]. intro gaia_result.
  apply finder_shape_bind; [apply first_table_quiet |]. intro gaia0.
  apply finder_shape_bind; [apply companion_exclusion_quiet; auto |]. intro gaia.
  apply finder_shape_bind; [apply select_rows_quiet |]. intro jmmc_cols.
  apply finder_shape_bind; [apply query_quiet, PK |]. intro kervella_result.
  apply finder_shape_bind; [apply first_table_quiet |]. intro kerv.
  apply finder_shape_bind; [apply select_rows_quiet |]. intro rows2.
  apply finder_shape_bind; [apply query_quiet, PC |]. intro cruzalebes_result.
  apply finder_shape_bind; [apply first_table_quiet |]. intro cruz.
  apply finder_shape_bind; [apply select_rows_quiet |]. intro rows3.
  cbv zeta.
  match goal with
  | |- finder_shape _ _ (bind (tell (Wrote _ ?t)) _) => set (fcct := t)
  end.
  clearbody fcct. unfold finder_shape.
  destruct (0 <? List.length fcct)%nat eqn:E; cbn [bind tell print fst snd app];
    exists [], fcct; rewrite E; split; constructor.
Qed.

Lemma queries_only_no_write (P : RegionQuery -> Prop) (log : list Event)
    (file : string) (t : list FinalRow) :
  queries_only P log -> ~ In (Wrote file t) log.
Proof.
  intros Q I. unfold queries_only in Q. rewrite Forall_forall in Q.
  exact (Q _ I).
Qed.

Lemma finder_shape_queries (P : RegionQuery -> Prop) (name : string)
    (run : Run unit) (q : RegionQuery) :
  finder_shape P name run -> In (Queried q) (fst run) -> P q.
Proof.
  unfold finder_shape, queries_only. intros S I.
  destruct (snd run) as [e | u].
  - rewrite Forall_forall in S. exact (S _ I).
  - destruct S as (qs & fcct & Q & E). rewrite E in I.
    apply in_app_or in I. destruct I as [I | [I | [I | []]]]; try discriminate.
    rewrite Forall_forall in Q. exact (Q _ I).
Qed.




(** ** A companion radius of zero *)

Lemma bind_ext {A B : Type} (m : Run A) (k k' : A -> Run B) :
  (forall a, k a = k' a) -> bind m k = bind m k'.
Proof.
  intro H. destruct m as [l [e | a]]; simpl; trivial. rewrite H. trivial.
Qed.

Lemma truthy_zero (radius : Q) : (radius == 0)%Q -> truthy radius = false.
Proof.
  intro H. unfold truthy. apply negb_false_iff, Qeq_bool_iff, H.
Qed.

Lemma companion_exclusion_zero (svc : Service) (radius : Q)
    (gaia_result : list GaiaRow) :
  (radius == 0)%Q ->
  companion_exclusion svc (Some radius) gaia_result = ret gaia_result.
Proof.
  intro H. unfold companion_exclusion. rewrite (truthy_zero _ H). reflexivity.
Qed.

(** C10: with a radius equal to 0 the discovery mode runs exactly as when
    no companion check is requested: the companion stage returns the Gaia
    table untouched without logging anything, and no query of the run is
    the neighbour query (the only one with [ROW_LIMIT = -1]). *)
Theorem zero_radius_disables_companion_exclusion (svc : Service) (name : string)
    (radius : Q) :
  (radius == 0)%Q ->
  cal_finder svc name (Some radius) = cal_finder svc name None
  /\ (forall gaia_result,
        companion_exclusion svc (Some radius) gaia_result = ([], inr gaia_result))
  /\ (forall q, In (Queried q) (fst (cal_finder svc name (Some radius))) ->
        rq_row_limit q <> Some (-1)
        /\ forall t r, q <> neighbors_query t r).
Proof.
  intro H. split; [| split].
  - unfold cal_finder. do 5 (apply bind_ext; intro).
    rewrite (companion_exclusion_zero _ _ _ H). reflexivity.
  - intro g. apply companion_exclusion_zero, H.
  - intros q I.
    assert (L : rq_row_limit q <> Some (-1)).
    { apply (finder_shape_queries (fun q => rq_row_limit q <> Some (-1)) name
               (cal_finder svc name (Some radius))); trivial.
      apply cal_finder_shape; try discriminate.
      intros t r E T. inversion E; subst. rewrite (truthy_zero _ H) in T.
      discriminate. }
    split; trivial. intros t r E. apply L. rewrite E. reflexivity.
Qed.

Lemma zero_radius_disables_companion_exclusion_witness :
  cal_finder svc_inconsistent "HD 1234" (Some 0%Q) =
  cal_finder svc_inconsistent "HD 1234" None.
Proof.
  apply (zero_radius_disables_companion_exclusion svc_inconsistent "HD 1234" 0%Q).
  reflexivity.
Defined.

(** A non-zero radius does send the neighbour query. *)
Example positive_radius_queries_neighbours :
  In (Queried (neighbors_query [gaia_of 1 jsdc_A] 5%Q))
     (fst (cal_finder svc_inconsistent "HD 1234" (Some 5%Q))).
Proof. vm_compute. auto. Qed.

(** ** Provenance of the rows of the final table *)

(** Fancy indexing returns one row per index, so the tables stacked at
    lines 123, 141 and 159 have the same length. *)
Lemma take_rows_length {A : Type} (tbl : list A) (ind : list Z) (rows : list A) :
  take_rows tbl ind = Some rows -> List.length rows = List.length ind.
Proof.
  revert rows. induction ind as [| i ind IH]; intros rows H; simpl in H.
  - inversion H. reflexivity.
  - destruct (np_index (List.length tbl) i) as [n |]; [| discriminate].
    destruct (nth_error tbl n) as [row |]; [| discriminate].
    destruct (take_rows tbl ind) as [rows' |]; [| discriminate].
    inversion H. simpl. f_equal. apply IH. reflexivity.
Qed.










Lemma first_table_inv {A : Type} (result : list (list A)) (msg : ExitMessage)
    (log : list Event) (out : Abort + list A) :
  first_table result msg = (log, out) ->
  log = []
  /\ ((result = [] /\ out = inl (SysExit msg))
      \/ exists t ts, result = t :: ts /\ out = inr t).
Proof.
  destruct result as [| t ts]; intro H; inversion H; split; trivial.
  - left. auto.
  - right. exists t, ts. auto.
Qed.

Lemma first_table_abort {A : Type} (result : list (list A)) (msg : ExitMessage)
    (log : list Event) (e : Abort) :
  first_table result msg = (log, inl e) -> log = [] /\ e = SysExit msg.
Proof.
  intro H. apply first_table_inv in H.
  destruct H as [-> [[_ E] | (t & ts & _ & E)]]; inversion E. auto.
Qed.

Lemma first_table_value {A : Type} (result : list (list A)) (msg : ExitMessage)
    (log : list Event) (table : list A) :
  first_table result msg = (log, inr table) ->
  log = [] /\ exists ts, result = table :: ts.
Proof.
  intro H. apply first_table_inv in H.
  destruct H as [-> [[_ E] | (t & ts & R & E)]]; inversion E; subst.
  split; trivial. exists ts. trivial.
Qed.

Lemma select_rows_inv {A : Type} (line : nat) (tbl : list A) (ind : list Z)
    (log : list Event) (out : Abort + list A) :
  select_rows line tbl ind = (log, out) ->
  log = []
  /\ ((take_rows tbl ind = None /\ out = inl (IndexError line))
      \/ exists rows, take_rows tbl ind = Some rows /\ out = inr rows).
Proof.
  unfold select_rows. destruct (take_rows tbl ind) as [rows |];
    intro H; inversion H; split; trivial.
  - right. exists rows. auto.
  - left. auto.
Qed.


Lemma companion_exclusion_inv (svc : Service) (gaia_comp_check : option Q)
    (gaia_result : list GaiaRow) (log : list Event) (out : Abort + list GaiaRow) :
  companion_exclusion svc gaia_comp_check gaia_result = (log, out) ->
  (forall e, out = inl e -> e = IndexError 108)
  /\ (forall g, out = inr g -> incl g gaia_result)
  /\ (forall f t, ~ In (Wrote f t) log).
Proof.
  intro H.
  assert (W : forall f t, ~ In (Wrote f t) log).
  { intros f t. apply (queries_only_no_write (fun _ => True)).
    replace log with (fst (companion_exclusion svc gaia_comp_check gaia_result))
      by (rewrite H; reflexivity).
    apply companion_exclusion_quiet. trivial. }
  split; [| split; trivial].
  - intros e ->. revert H. unfold companion_exclusion, query_gaia.
    destruct gaia_comp_check as [radius |]; [| discriminate].
    destruct (truthy radius); [| discriminate]. cbn.
    destruct (vizier_gaia svc (neighbors_query gaia_result radius)) as [| nb ts]; cbn.
    + intro H. inversion H. reflexivity.
    + destruct (removal_list (map g_q nb)); discriminate.
  - intros g ->. revert H. unfold companion_exclusion, query_gaia.
    destruct gaia_comp_check as [radius |];
      [| intro H; inversion H; apply incl_refl].
    destruct (truthy radius); [| intro H; inversion H; apply incl_refl]. cbn.
    destruct (vizier_gaia svc (neighbors_query gaia_result radius)) as [| nb ts]; cbn.
    + discriminate.
    + destruct (removal_list (map g_q nb)); cbn; intro H; inversion H.
      * apply incl_refl.
      * apply incl_filter.
Qed.



Ltac run_query E :=
  match type of E with
  | ?m = _ => unfold query_jsdc, query_gaia, query_kervella, query_cruzalebes in E;
              cbn in E; inversion E; subst; clear E
  end.

Ltac run_step H l a l' E :=
  apply bind_inv in H;
  destruct H as [(?e & E & ->) | (l & a & l' & E & H & ->)].







(** The run on this service: the first JSDC row has no Gaia match, the
    two rows written are the second and the third. *)
Example positional_run_writes :
  exists qs,
    fst (cal_finder svc_positional "HD 1234" None) =
    qs ++ [Wrote "HD 1234_Calibrators.txt"
             [(jsdc_B, gaia_cols (gaia_at 2 12 (-11)),
               kervella_cols (kervella_of 1 12 (-11)),
               cruzalebes_cols (cruzalebes_of 1 0.3));
              (jsdc_C, gaia_cols (gaia_at 3 13 (-12)),
               kervella_cols (kervella_of 2 13 (-12)),
               cruzalebes_cols (cruzalebes_of 2 0.3))];
           Printed (FoundCalibrators 2)].
Proof.
  exists [Queried (jsdc_find_query "HD 1234");
          Queried (gaia_find_query [jsdc_A; jsdc_B; jsdc_C]);
          Queried (kervella_find_query [gaia_at 2 12 (-11); gaia_at 3 13 (-12)]);
          Queried (cruzalebes_find_query
                     [kervella_of 1 12 (-11); kervella_of 2 13 (-12)])].
  reflexivity.
Qed.

(** Why the back-pointers must start at one: [_q = 0] becomes the index
    [-1], which numpy resolves to the last row instead of failing. *)
Example zero_pointer_wraps_around :
  take_rows [jsdc_A; jsdc_B; jsdc_C] [0 - 1] = Some [jsdc_C]
  /\ take_rows [jsdc_A; jsdc_B; jsdc_C] [4 - 1] = None.
Proof. split; reflexivity. Qed.

(** [removal_list] keeps the reference numbers met more than once. *)
Example removal_list_fan_out : removal_list [1; 2; 2; 3; 1; 4] = [1; 2].
Proof. reflexivity. Qed.

(** The companion exclusion compares the reference numbers of the
    neighbour search, which count the rows of the Gaia table, with the
    [_q] of the Gaia table, which count the rows of the JSDC table.  Here
    the first Gaia row (JSDC row 2) has a companion: reference number 1 is
    to be removed, no Gaia row has [_q = 1], and nothing is dropped. *)
Example companion_exclusion_index_spaces :
  let gaia_result := [gaia_at 2 12 (-11); gaia_at 3 13 (-12)] in
  map g_q (neighbours_of (ByRows (gaia_coords gaia_result))) = [1; 1; 2]
  /\ removal_list [1; 1; 2] = [1]
  /\ snd (companion_exclusion svc_companion (Some 5%Q) gaia_result) = inr gaia_result.
Proof. repeat split. Qed.

(** ** The companion exclusion of the discovery mode *)

Lemma counted_counter_add (c : list (Z * nat)) (x y : Z) :
  counted (counter_add y c) x = if x =? y then S (counted c x) else counted c x.
Proof.
  induction c as [| [k n] c IH]; simpl.
  - destruct (x =? y); reflexivity.
  - destruct (Z.eqb_spec y k) as [-> | N]; simpl.
    + destruct (x =? k); reflexivity.
    + destruct (Z.eqb_spec x k) as [-> | N'].
      * destruct (Z.eqb_spec k y); [congruence | reflexivity].
      * exact IH.
Qed.

Lemma counter_add_keys (c : list (Z * nat)) (y k : Z) :
  In k (map fst (counter_add y c)) <-> k = y \/ In k (map fst c).
Proof.
  induction c as [| [k' n] c IH]; simpl.
  - intuition.
  - destruct (Z.eqb_spec y k') as [-> | N]; simpl; intuition.
Qed.

Lemma counter_add_ok (c : list (Z * nat)) (y : Z) :
  counter_ok c -> counter_ok (counter_add y c).
Proof.
  intros [D P]. induction c as [| [k n] c IH]; simpl.
  - split.
    + repeat constructor. intros [].
    + intros k n [E | []]. inversion E. lia.
  - inversion D as [| ? ? Nk D']; subst.
    assert (P' : forall k n, In (k, n) c -> (0 < n)%nat)
      by (intros ? ? I; apply (P _ _ (or_intror I))).
    destruct (Z.eqb_spec y k) as [-> | N]; simpl.
    + split; [exact D |]. intros k' n' [E | I].
      * inversion E. lia.
      * apply (P' _ _ I).
    + destruct (IH D' P') as [D'' P'']. split.
      * constructor; trivial. rewrite counter_add_keys. intros [E | I]; auto.
      * intros k' n' [E | I]; [| apply (P'' _ _ I)].
        inversion E; subst. apply (P k' n'). left. reflexivity.
Qed.

Lemma counted_in (c : list (Z * nat)) (k : Z) (n : nat) :
  NoDup (map fst c) -> In (k, n) c -> counted c k = n.
Proof.
  induction c as [| [k' n'] c IH]; simpl; intros D I; [contradiction |].
  inversion D as [| ? ? Nk D']; subst.
  destruct I as [E | I].
  - inversion E; subst. rewrite Z.eqb_refl. reflexivity.
  - destruct (Z.eqb_spec k k') as [-> | N]; [| apply IH; trivial].
    exfalso. apply Nk. apply (in_map fst) in I. exact I.
Qed.

Lemma in_counted (c : list (Z * nat)) (k : Z) :
  (0 < counted c k)%nat -> In (k, counted c k) c.
Proof.
  induction c as [| [k' n'] c IH]; simpl; intro P; [lia |].
  destruct (Z.eqb_spec k k') as [-> | N]; auto.
Qed.

Lemma Counter_spec (xs : list Z) :
  counter_ok (Counter xs)
  /\ forall x, counted (Counter xs) x = count_occ Z.eq_dec xs x.
Proof.
  unfold Counter.
  assert (G : forall c, counter_ok c ->
              counter_ok (fold_left (fun c x => counter_add x c) xs c)
              /\ forall x, counted (fold_left (fun c x => counter_add x c) xs c) x
                           = (counted c x + count_occ Z.eq_dec xs x)%nat).
  { induction xs as [| y xs IH]; intros c K; simpl.
    - split; [exact K | intro x; lia].
    - destruct (IH (counter_add y c) (counter_add_ok c y K)) as [K' E].
      split; [exact K' |]. intro x. rewrite E, counted_counter_add.
      destruct (Z.eq_dec y x) as [-> | N].
      + rewrite Z.eqb_refl. lia.
      + destruct (Z.eqb_spec x y); [congruence | lia]. }
  destruct (G [] (conj (NoDup_nil _) (fun k n (I : In (k, n) []) => match I with end)))
    as [K E].
  split; [exact K |]. intro x. rewrite E. reflexivity.
Qed.

(** [removal_list] lists, each once, the values met at least twice. *)
Lemma removal_list_spec (xs : list Z) :
  NoDup (removal_list xs)
  /\ forall x, In x (removal_list xs) <-> (2 <= count_occ Z.eq_dec xs x)%nat.
Proof.
  destruct (Counter_spec xs) as [[D P] E]. unfold removal_list. split.
  - revert D. generalize (Counter xs). intro c.
    induction c as [| [k n] c IH]; simpl; intro D; [constructor |].
    inversion D as [| ? ? Nk D']; subst.
    destruct (1 <? n)%nat; simpl; [| apply IH, D'].
    constructor; [| apply IH, D'].
    intro I. apply Nk. apply in_map_iff in I. destruct I as ([k' n'] & <- & I).
    apply filter_In in I. destruct I as [I _].
    apply (in_map fst) in I. exact I.
  - intro x. rewrite <- E. rewrite in_map_iff. split.
    + intros ([k n] & <- & I). apply filter_In in I. destruct I as [I L].
      simpl in *. rewrite (counted_in _ _ _ D I).
      apply Nat.ltb_lt in L. lia.
    + intro L. exists (x, counted (Counter xs) x). split; trivial.
      apply filter_In. split.
      * apply in_counted. lia.
      * simpl. apply Nat.ltb_lt. lia.
Qed.

Lemma isin_In (x : Z) (xs : list Z) : isin x xs = true <-> In x xs.
Proof.
  unfold isin. rewrite existsb_exists. split.
  - intros (y & I & E). apply Z.eqb_eq in E. subst. exact I.
  - intro I. exists x. split; trivial. apply Z.eqb_refl.
Qed.

Lemma filter_all {A : Type} (f : A -> bool) (l : list A) :
  (forall x, In x l -> f x = true) -> filter f l = l.
Proof.
  induction l as [| x l IH]; simpl; intro H; trivial.
  rewrite (H x (or_introl eq_refl)). f_equal. apply IH. auto.
Qed.

(** X1: when the companion stage runs and the neighbour search answers a
    table, the Gaia rows kept are, in their order, those whose own [_q]
    occurs at most once among the [_q] of the neighbour table; a row whose
    [_q] occurs twice or more there is dropped. *)
Theorem companion_exclusion_keeps (svc : Service) (radius : Q)
    (gaia_result neighbors : list GaiaRow) (tables : list (list GaiaRow)) :
  truthy radius = true ->
  vizier_gaia svc (neighbors_query gaia_result radius) = neighbors :: tables ->
  companion_exclusion svc (Some radius) gaia_result =
    ([Queried (neighbors_query gaia_result radius)],
     inr (filter (fun g => (count_occ Z.eq_dec (map g_q neighbors) (g_q g) <=? 1)%nat)
                 gaia_result)).
Proof.
  intros T H. unfold companion_exclusion, query_gaia. rewrite T. cbn.
  rewrite H. cbn.
  destruct (removal_list_spec (map g_q neighbors)) as [_ R].
  assert (F : forall g,
             negb (isin (g_q g) (removal_list (map g_q neighbors)))
             = (count_occ Z.eq_dec (map g_q neighbors) (g_q g) <=? 1)%nat).
  { intro g. destruct (isin _ _) eqn:I; simpl; symmetry.
    - apply isin_In, R in I. apply Nat.leb_gt. lia.
    - apply Nat.leb_le.
      destruct (le_lt_dec (count_occ Z.eq_dec (map g_q neighbors) (g_q g)) 1)
        as [L | L]; trivial.
      assert (I' : isin (g_q g) (removal_list (map g_q neighbors)) = true)
        by (apply isin_In, R; lia).
      congruence. }
  destruct (removal_list (map g_q neighbors)) as [| x rl] eqn:RL; cbn.
  - f_equal. f_equal. symmetry. apply filter_all. intros g _.
    rewrite <- F. reflexivity.
  - f_equal. f_equal. apply filter_ext. exact F.
Qed.

Lemma companion_exclusion_keeps_witness :
  companion_exclusion svc_companion (Some 5%Q)
    [gaia_at 1 11 (-9); gaia_at 2 12 (-11)] =
  ([Queried (neighbors_query [gaia_at 1 11 (-9); gaia_at 2 12 (-11)] 5%Q)],
   inr [gaia_at 2 12 (-11)]).
Proof.
  apply (companion_exclusion_keeps svc_companion 5%Q
           [gaia_at 1 11 (-9); gaia_at 2 12 (-11)]
           (neighbours_of (ByRows (gaia_coords [gaia_at 1 11 (-9); gaia_at 2 12 (-11)])))
           []); reflexivity.
Defined.

(** ** The binarity check of the verification mode *)

Lemma int_of_bool_zero (b : bool) : int_of_bool b = 0 <-> b = false.
Proof. destruct b; simpl; split; intro H; trivial; discriminate. Qed.

(** Bitwise or with the boolean, then [!= 0], is the plain disjunction. *)
Lemma kervella_fails_iff (row : KervellaRow) :
  kervella_fails row = true <->
  k_DMS row <> 0 \/ k_W row <> 0 \/ k_BinH row <> 0 \/ k_BinG2 row <> 0.
Proof.
  unfold kervella_fails.
  rewrite negb_true_iff, Z.eqb_neq, Z.lor_eq_0_iff, int_of_bool_zero.
  rewrite !orb_false_iff, !negb_false_iff, !Z.eqb_eq. lia.
Qed.

(** X2: although line 307 applies [!= 0] to the bitwise or of three
    booleans with [BinG2], a candidate found alone in the Kervella
    catalogue passes the check (score unchanged) iff DMS, W, BinH and BinG2
    are all 0, and loses exactly 5 points as soon as one of them is not. *)
Theorem kervella_check_binarity (svc : Service) (name : string) (c : Z)
    (row : KervellaRow) (tables : list (list KervellaRow)) :
  vizier_kervella svc (kervella_check_query name) = [row] :: tables ->
  (snd (kervella_check svc name c) = inr c <->
     k_DMS row = 0 /\ k_W row = 0 /\ k_BinH row = 0 /\ k_BinG2 row = 0)
  /\ (snd (kervella_check svc name c) = inr (c - 5) <->
        k_DMS row <> 0 \/ k_W row <> 0 \/ k_BinH row <> 0 \/ k_BinG2 row <> 0).
Proof.
  intro H.
  assert (E : snd (kervella_check svc name c) =
              if kervella_fails row then inr (c - 5) else inr c).
  { unfold kervella_check, query_kervella. simpl. rewrite H. simpl.
    destruct (kervella_fails row); reflexivity. }
  rewrite E. pose proof (kervella_fails_iff row) as F.
  destruct (kervella_fails row); split; split; intro A.
  - inversion A. lia.
  - assert (T : true = true) by reflexivity. apply F in T. lia.
  - apply F. reflexivity.
  - reflexivity.
  - assert (N : ~ (k_DMS row <> 0 \/ k_W row <> 0 \/ k_BinH row <> 0
                   \/ k_BinG2 row <> 0)).
    { intro D. apply F in D. discriminate. }
    lia.
  - reflexivity.
  - inversion A. lia.
  - apply F in A. discriminate.
Qed.

Lemma kervella_check_binarity_witness :
  snd (kervella_check svc_worst "HD 5678" 4) = inr (4 - 5).
Proof.
  apply (kervella_check_binarity svc_worst "HD 5678" 4 row_binary []).
  - reflexivity.
  - left. discriminate.
Defined.

(** ** The declination limit *)

(** X3: a star that SIMBAD places at a declination of -25 degrees or less,
    the limit itself included, stops both modes before any catalogue is
    queried; above the limit the first thing either mode does is to query
    JSDC. *)
Theorem declination_limit (svc : Service) (name : string) (star : SimbadRow)
    (others : list SimbadRow) (gaia_comp_check : option Q) (flag : bool) :
  simbad_query_object svc name = star :: others ->
  ((s_dec star <= -25)%Q ->
     cal_finder svc name gaia_comp_check = ([], inl (SysExit OutsideDeclinationLimits))
     /\ cal_checker svc name flag = ([], inl (SysExit OutsideDeclinationLimits)))
  /\ ((-25 < s_dec star)%Q ->
        (exists log, fst (cal_finder svc name gaia_comp_check)
                     = Queried (jsdc_find_query name) :: log)
        /\ (exists log, fst (cal_checker svc name flag)
                        = Score (init_check_pass_count flag)
                            :: Queried (jsdc_check_query name) :: log)).
Proof.
  intro S. split.
  - intro L. apply Qle_bool_iff in L.
    unfold cal_finder, cal_checker, resolve. rewrite S, L. split; reflexivity.
  - intro G.
    assert (L : Qle_bool (s_dec star) (-25) = false).
    { destruct (Qle_bool (s_dec star) (-25)) eqn:E; trivial.
      apply Qle_bool_iff in E. exfalso. exact (Qlt_not_le _ _ G E). }
    assert (R : resolve svc name = ([], inr star))
      by (unfold resolve; rewrite S, L; reflexivity).
    split.
    + unfold cal_finder. rewrite bind_fst_snd, R. cbn [fst snd app].
      rewrite bind_fst_snd. cbn [query_jsdc bind tell ret fst snd app].
      eexists. reflexivity.
    + unfold cal_checker. rewrite bind_fst_snd, R. cbn [fst snd app].
      rewrite bind_fst_snd. cbn [tell fst snd app].
      rewrite bind_fst_snd. unfold jsdc_check. rewrite bind_fst_snd.
      cbn [query_jsdc bind tell ret fst snd app].
      destruct (snd _); eexists; reflexivity.
Qed.

Lemma declination_limit_witness :
  cal_finder (constant_service [star_on_limit] [[jsdc_A]] [] [] []) "HD 1234" None
  = ([], inl (SysExit OutsideDeclinationLimits)).
Proof.
  apply (declination_limit (constant_service [star_on_limit] [[jsdc_A]] [] [] [])
           "HD 1234" star_on_limit [] None false).
  - reflexivity.
  - vm_compute. discriminate.
Defined.

(** ** The penalties of the Gaia stage *)

Lemma guarded_above_true (o : option Q) (t : Q) :
  negb (is_masked o) && above o t = true <-> exists x, o = Some x /\ (t < x)%Q.
Proof.
  destruct o as [x |]; simpl.
  - rewrite Qgt_bool_true. split.
    + intro L. exists x. auto.
    + intros (y & E & L). inversion E; subst. exact L.
  - split; [discriminate | intros (y & E & _); discriminate].
Qed.

Lemma gaia_fails_true (row : GaiaRow) :
  gaia_fails row = true <->
  (exists x, g_IPDfmp row = Some x /\ 2 < x)%Q
  \/ (exists x, g_RUWE row = Some x /\ 1.4 < x)%Q
  \/ (exists x, g_Vbroad row = Some x /\ 100 < x)%Q.
Proof.
  unfold gaia_fails. rewrite !orb_true_iff, !guarded_above_true. tauto.
Qed.

(** X4: on the first Gaia row the threshold checks take 0, 1, 5 or 6
    points and never fail otherwise: 5 iff Vbroad is masked, 6 iff Vbroad
    is listed above 100 (one point for the stage, five for the rotation),
    1 iff Vbroad is listed at 100 or less while a listed IPDfmp exceeds 2
    or a listed RUWE exceeds 1.4. *)
Theorem gaia_threshold_penalties (row : GaiaRow) (c : Z) :
  exists p,
    snd (gaia_threshold_checks row c) = inr (c - p)
    /\ (p = 0 \/ p = 1 \/ p = 5 \/ p = 6)
    /\ (p = 5 <-> g_Vbroad row = None)
    /\ (p = 6 <-> exists v, g_Vbroad row = Some v /\ (100 < v)%Q)
    /\ (p = 1 <->
          (exists v, g_Vbroad row = Some v /\ (v <= 100)%Q)
          /\ ((exists x, g_IPDfmp row = Some x /\ (2 < x)%Q)
              \/ (exists x, g_RUWE row = Some x /\ (1.4 < x)%Q))).
Proof.
  destruct (g_Vbroad row) as [v |] eqn:V.
  - rewrite (gaia_threshold_checks_listed _ _ _ V).
    pose proof (gaia_fails_true row) as F. rewrite V in F.
    pose proof (Qgt_bool_true v 100) as G.
    pose proof (Qgt_bool_false v 100) as G'.
    assert (S : forall x, Some v = Some x -> x = v) by (intros x E; congruence).
    destruct (gaia_fails row) eqn:GF.
    + destruct (Qgt_bool v 100) eqn:GV.
      * assert (L : (100 < v)%Q) by (apply G; reflexivity).
        exists 6. split; [| split; [| split; [| split]]].
        -- f_equal. lia.
        -- lia.
        -- split; [lia | discriminate].
        -- split; [| trivial]. intros _. exists v. auto.
        -- split; [lia |]. intros [(v' & E & L') _]. apply S in E. subst v'.
           exfalso. exact (Qlt_not_le _ _ L L').
      * assert (L : (v <= 100)%Q) by (apply G'; reflexivity).
        exists 1. split; [| split; [| split; [| split]]].
        -- reflexivity.
        -- lia.
        -- split; [lia | discriminate].
        -- split; [lia |]. intros (v' & E & L'). apply S in E. subst v'.
           exfalso. exact (Qlt_not_le _ _ L' L).
        -- split; [| trivial]. intros _. split; [exists v; auto |].
           destruct (proj1 F eq_refl) as [I | [R | (v' & E & L')]]; auto.
           apply S in E. subst v'. exfalso. exact (Qlt_not_le _ _ L' L).
    + assert (N : ~ ((exists x, g_IPDfmp row = Some x /\ 2 < x)%Q
                     \/ (exists x, g_RUWE row = Some x /\ 1.4 < x)%Q
                     \/ (exists x, Some v = Some x /\ 100 < x)%Q)).
      { intro D. apply F in D. discriminate. }
      exists 0. split; [| split; [| split; [| split]]].
      * f_equal. lia.
      * lia.
      * split; [lia | discriminate].
      * split; [lia |]. intro D. exfalso. apply N. auto.
      * split; [lia |]. intros [_ D]. exfalso. apply N. tauto.
  - rewrite (gaia_threshold_checks_masked _ _ V). exists 5.
    split; [| split; [| split; [| split]]].
    + reflexivity.
    + lia.
    + split; trivial.
    + split; [lia |]. intros (v & E & _). discriminate.
    + split; [lia |]. intros [(v & E & _) _]. discriminate.
Qed.

Lemma gaia_threshold_checks_quiet (row : GaiaRow) (c : Z) :
  ~ In (Printed GaiaCompanionsWarning) (fst (gaia_threshold_checks row c)).
Proof.
  unfold gaia_threshold_checks. cbn. stage_cases;
    intros I; repeat destruct I as [I | I]; try discriminate; try contradiction.
Qed.

(** X5: in verification mode the companion warning is printed iff the
    10-arcsecond Gaia search returns two rows or more, whether or not the
    companion check is on.  With a single row the stage is exactly the
    threshold checks on that row; with more the thresholds are checked on
    the first row, after one point is taken if the companion check is on. *)
Theorem gaia_companion_warning_policy (svc : Service) (name : string)
    (flag : bool) (c : Z) (row : GaiaRow) (rest : list GaiaRow)
    (tables : list (list GaiaRow)) :
  vizier_gaia svc (gaia_check_query name) = (row :: rest) :: tables ->
  (In (Printed GaiaCompanionsWarning) (fst (gaia_check svc name flag c))
     <-> rest <> [])
  /\ (rest = [] ->
        gaia_check svc name flag c =
          (Queried (gaia_check_query name) :: fst (gaia_threshold_checks row c),
           snd (gaia_threshold_checks row c)))
  /\ (rest <> [] ->
        snd (gaia_check svc name flag c) =
          snd (gaia_threshold_checks row (if flag then c - 1 else c))).
Proof.
  intro H.
  assert (E : gaia_check svc name flag c =
              (Queried (gaia_check_query name)
                 :: fst (gaia_companion_warning flag (row :: rest) c)
                 ++ fst (gaia_threshold_checks row
                           (c - companion_penalty flag (row :: rest))),
               snd (gaia_threshold_checks row
                      (c - companion_penalty flag (row :: rest))))).
  { destruct (gaia_companion_warning_result flag (row :: rest) c) as [R _].
    unfold gaia_check, query_gaia. simpl bind at 2. rewrite H.
    cbn [bind app]. rewrite bind_fst_snd, R. reflexivity. }
  rewrite E. cbn [fst snd]. split; [| split].
  - split.
    + intros [I | I]; [discriminate |]. apply in_app_or in I.
      destruct I as [I | I]; [| destruct (gaia_threshold_checks_quiet _ _ I)].
      intros ->. unfold gaia_companion_warning in I. simpl in I. exact I.
    + intro N. right. apply in_or_app. left.
      unfold gaia_companion_warning.
      destruct rest as [| r2 rest]; [congruence |].
      replace (1 <? Z.of_nat (List.length (row :: r2 :: rest))) with true
        by (symmetry; apply Z.ltb_lt; simpl List.length; lia).
      destruct flag; left; reflexivity.
  - intros ->. unfold companion_penalty, gaia_companion_warning. simpl.
    replace (c - 0) with c by lia. reflexivity.
  - intro N. unfold companion_penalty.
    destruct rest as [| r2 rest]; [congruence |].
    replace (1 <? Z.of_nat (List.length (row :: r2 :: rest))) with true
      by (symmetry; apply Z.ltb_lt; simpl List.length; lia).
    destruct flag; simpl; [reflexivity |].
    replace (c - 0) with c by lia. reflexivity.
Qed.

Lemma gaia_companion_warning_policy_witness :
  In (Printed GaiaCompanionsWarning)
     (fst (gaia_check svc_worst "HD 5678" true 5)).
Proof.
  apply (gaia_companion_warning_policy svc_worst "HD 5678" true 5
           row_fast_rotator [row_no_IPDfmp] []).
  - reflexivity.
  - discriminate.
Defined.

(** ** What the score says about the checks *)

Lemma drops_app (c : Z) (l1 l2 : list Z) :
  drops c (l1 ++ l2) = drops c l1 ++ drops (last l1 c) l2.
Proof.
  revert c. induction l1 as [| s l1 IH]; intro c; trivial.
  rewrite last_cons_default.
  change (drops c ((s :: l1) ++ l2)) with ((c - s) :: drops s (l1 ++ l2)).
  rewrite IH. reflexivity.
Qed.

Lemma losses_bind {B : Type} (K c : Z) (m : Run Z) (k : Z -> Run B) :
  stage_ok K c m -> losses_1_or_5 c (fst m) ->
  (forall c', losses_1_or_5 c' (fst (k c'))) ->
  losses_1_or_5 c (fst (bind m k)).
Proof.
  intros [_ R] L Hk. unfold losses_1_or_5 in *. rewrite bind_fst_snd.
  destruct (snd m) as [e | c'] eqn:S; cbn [fst]; trivial.
  rewrite scores_app, drops_app. apply Forall_app. split; trivial.
  rewrite <- (R c' eq_refl). apply Hk.
Qed.

Ltac losses_solve :=
  cbn; stage_cases; unfold losses_1_or_5; cbn;
  repeat first [apply Forall_nil | apply Forall_cons]; try lia.

Lemma jsdc_check_losses (svc : Service) (name : string) (c : Z) :
  losses_1_or_5 c (fst (jsdc_check svc name c)).
Proof.
  unfold jsdc_check, query_jsdc.
  destruct (vizier_jsdc svc (jsdc_check_query name)) as [| [| row [| row' t]] ts];
    losses_solve.
Qed.

Lemma gaia_check_losses (svc : Service) (name : string) (flag : bool) (c : Z) :
  losses_1_or_5 c (fst (gaia_check svc name flag c)).
Proof.
  unfold gaia_check, query_gaia.
  destruct (vizier_gaia svc (gaia_check_query name)) as [| table ts];
    [losses_solve |].
  cbn [bind tell ret app].
  assert (G : losses_1_or_5 c
                (fst (bind (gaia_companion_warning flag table c)
                        (fun c' => match table with
                                   | [] => abort (IndexError 271)
                                   | row :: _ => gaia_threshold_checks row c'
                                   end)))).
  { apply (losses_bind 1); [apply gaia_companion_warning_ok | |].
    - unfold gaia_companion_warning. destruct flag; losses_solve.
    - intro c'. destruct table as [| row rest]; [losses_solve |].
      unfold gaia_threshold_checks. losses_solve. }
  destruct (bind (gaia_companion_warning flag table c) _) as [l r].
  exact G.
Qed.

Lemma kervella_check_losses (svc : Service) (name : string) (c : Z) :
  losses_1_or_5 c (fst (kervella_check svc name c)).
Proof.
  unfold kervella_check, query_kervella.
  destruct (vizier_kervella svc (kervella_check_query name))
    as [| [| row [| row' t]] ts]; losses_solve.
Qed.

Lemma cruzalebes_check_losses (svc : Service) (name : string) (c : Z) :
  losses_1_or_5 c (fst (cruzalebes_check svc name c)).
Proof.
  unfold cruzalebes_check, query_cruzalebes.
  destruct (vizier_cruzalebes svc (cruzalebes_check_query name))
    as [| [| row [| row' t]] ts]; losses_solve.
Qed.

Lemma checks_losses (svc : Service) (name : string) (flag : bool) (init c : Z) :
  losses_1_or_5 c
    (fst (c1 <- jsdc_check svc name c ;;
          c2 <- gaia_check svc name flag c1 ;;
          c3 <- kervella_check svc name c2 ;;
          c4 <- cruzalebes_check svc name c3 ;;
          print (classification c4 init))).
Proof.
  apply (losses_bind 1); [apply jsdc_check_ok | apply jsdc_check_losses |].
  intro c1.
  apply (losses_bind 7); [apply gaia_check_ok | apply gaia_check_losses |].
  intro c2.
  apply (losses_bind 5); [apply kervella_check_ok | apply kervella_check_losses |].
  intro c3.
  apply (losses_bind 1); [apply cruzalebes_check_ok | apply cruzalebes_check_losses |].
  intro c4. constructor.
Qed.

Lemma cal_checker_scores (svc : Service) (name : string) (flag : bool) :
  let init := init_check_pass_count flag in
  let log := fst (cal_checker svc name flag) in
  scores log = []
  \/ exists inner, scores log = init :: scores inner /\ losses_1_or_5 init inner.
Proof.
  intros init log. subst log. unfold cal_checker. fold init.
  rewrite bind_fst_snd, resolve_log.
  destruct (snd (resolve svc name)) as [e | star]; cbn [fst app].
  - left. reflexivity.
  - right. rewrite bind_fst_snd. cbn [tell fst snd app scores].
    eexists. split; [reflexivity |]. apply checks_losses.
Qed.

(** X6: in verification mode the score only ever changes by a loss of
    exactly 1 or exactly 5 points: whatever the catalogues answer, every
    logged value of [check_pass_count] after the initial total is the
    previous one minus 1 or minus 5. *)
Theorem score_changes_by_1_or_5 (svc : Service) (name : string) (flag : bool) :
  let init := init_check_pass_count flag in
  let log := fst (cal_checker svc name flag) in
  (scores log = [] \/ hd_error (scores log) = Some init)
  /\ Forall (fun d => d = 1 \/ d = 5) (drops init (tl (scores log))).
Proof.
  intros init log.
  destruct (cal_checker_scores svc name flag) as [E | (inner & E & L)];
    fold init in E; fold log in E; rewrite E.
  - split; [left; reflexivity | constructor].
  - split; [right; reflexivity | exact L].
Qed.

Lemma last_total_loss (c : Z) (l : list Z) :
  last l c = c - total_loss (drops c l).
Proof.
  revert c. induction l as [| s l IH]; intro c.
  - simpl. unfold total_loss. simpl. lia.
  - rewrite last_cons_default, IH. unfold total_loss. simpl. lia.
Qed.

Lemma total_loss_facts (ds : list Z) :
  Forall (fun d => d = 1 \/ d = 5) ds ->
  0 <= total_loss ds
  /\ (total_loss ds = 0 <-> ds = [])
  /\ (total_loss ds = 1 <-> ds = [1])
  /\ (In 5 ds -> 5 <= total_loss ds).
Proof.
  unfold total_loss. induction 1 as [| d ds D _ IH]; simpl.
  - split; [lia |]. split; [tauto |]. split.
    + split; [lia | discriminate].
    + intros [].
  - destruct IH as (P & Z0 & Z1 & Z5). split; [lia |]. split; [| split].
    + split; [lia | discriminate].
    + split.
      * intro E. assert (d = 1) by lia. subst d.
        assert (T : fold_right Z.add 0 ds = 0) by lia.
        apply Z0 in T. subst ds. reflexivity.
      * intro E. inversion E; subst. simpl. lia.
    + intros [E | I]; [lia |]. specialize (Z5 I). lia.
Qed.

Lemma drops_nil (c : Z) (l : list Z) : drops c l = [] <-> l = [].
Proof. destruct l; simpl; split; intro H; trivial; discriminate. Qed.

Lemma drops_one (c : Z) (l : list Z) : drops c l = [1] <-> l = [c - 1].
Proof.
  destruct l as [| s [| s' l]]; simpl; split; intro H; try discriminate.
  - inversion H. f_equal. lia.
  - inversion H. f_equal. lia.
Qed.

Lemma ideal_iff_full_score (flag : bool) (score : Z) :
  classification score (init_check_pass_count flag) = IdealCalibrator <->
  score = init_check_pass_count flag.
Proof.
  rewrite (proj1 (classification_spec _ _)).
  unfold pass_ratio, Qeq, Qdiv, Qmult, Qinv.
  destruct flag; simpl; lia.
Qed.

Lemma unlikely_iff_low_score (flag : bool) (score : Z) :
  score <> init_check_pass_count flag ->
  score <> init_check_pass_count flag - 1 ->
  classification score (init_check_pass_count flag) = UnlikelyViable_SubmitToBadCal.
Proof.
  intros N1 N2.
  pose proof (ideal_iff_full_score flag score) as I.
  pose proof (usable_iff_one_point_lost flag score) as U.
  unfold classification in *. cbv zeta in *.
  destruct (Qeq_bool _ 1); [tauto |].
  destruct (Qlt_bool _ 1 && Qle_bool 0.7 _); [tauto | reflexivity].
Qed.

(** X7: a verification run that reaches its end reports "ideal" iff no
    point was lost at all, and "usable" iff exactly one point was lost,
    once; a single 5-point loss (binarity in Kervella, a masked Vbroad, a
    Vbroad above 100) always gives "unlikely to be viable". *)
Theorem verdict_by_losses (svc : Service) (name : string) (flag : bool)
    (log : list Event) :
  cal_checker svc name flag = (log, inr tt) ->
  let init := init_check_pass_count flag in
  exists log' verdict,
    log = log' ++ [Printed verdict]
    /\ (verdict = IdealCalibrator <-> scores log = [init])
    /\ (verdict = UsableCalibrator <-> scores log = [init; init - 1])
    /\ (In 5 (drops init (tl (scores log))) ->
        verdict = UnlikelyViable_SubmitToBadCal).
Proof.
  intros H init.
  destruct (cal_checker_scores svc name flag) as [E | (inner & E & L)];
    fold init in E; rewrite H in E; cbn [fst] in E.
  - exfalso. unfold cal_checker in H.
    apply bind_inr in H. destruct H as (l0 & star & r0 & _ & H & ->).
    apply bind_inr in H. destruct H as (lt & u & r1 & Et & _ & ->).
    inversion Et; subst. rewrite scores_app in E.
    apply app_eq_nil in E. destruct E as [_ E]. discriminate.
  - assert (F : exists log',
               log = log' ++ [Printed (classification (last (scores log) init) init)]).
    { unfold cal_checker in H. fold init in H.
      apply bind_inr in H. destruct H as (l0 & star & r0 & E0 & H & ->).
      pose proof (resolve_log svc name) as L0. rewrite E0 in L0.
      simpl in L0. subst l0.
      apply bind_inr in H. destruct H as (lt & u & r1 & Et & H & ->).
      inversion Et; subst lt; clear Et.
      destruct (checks_final_score _ _ _ _ _ _ H) as [log' F].
      exists (Score init :: log'). cbn [app scores].
      rewrite last_cons_default. rewrite F at 1. reflexivity. }
    destruct F as [log' F].
    exists log', (classification (last (scores log) init) init).
    split; [exact F |]. rewrite E. rewrite last_cons_default. cbn [tl].
    rewrite (last_total_loss init (scores inner)).
    unfold losses_1_or_5 in L.
    destruct (total_loss_facts _ L) as (P & Z0 & Z1 & Z5).
    split; [| split].
    + unfold init. rewrite ideal_iff_full_score. fold init. split.
      * intro T. assert (T' : total_loss (drops init (scores inner)) = 0) by lia.
        apply Z0, drops_nil in T'. rewrite T'. reflexivity.
      * intro T. inversion T as [T']. rewrite T'. unfold total_loss. simpl. lia.
    + unfold init. rewrite usable_iff_one_point_lost. fold init. split.
      * intro T. assert (T' : total_loss (drops init (scores inner)) = 1) by lia.
        apply Z1, drops_one in T'. rewrite T'. reflexivity.
      * intro T. inversion T as [T']. rewrite T'. unfold total_loss. simpl. lia.
    + intro I. specialize (Z5 I). apply unlikely_iff_low_score; unfold init in *; lia.
Qed.

Lemma verdict_by_losses_witness :
  exists log' verdict,
    log_HD5678 = log' ++ [Printed verdict]
    /\ (verdict = IdealCalibrator <-> scores log_HD5678 = [4])
    /\ (verdict = UsableCalibrator <-> scores log_HD5678 = [4; 4 - 1])
    /\ (In 5 (drops 4 (tl (scores log_HD5678))) ->
        verdict = UnlikelyViable_SubmitToBadCal).
Proof.
  apply (verdict_by_losses svc_HD5678 "HD 5678" false log_HD5678).
  reflexivity.
Defined.

(** ** Discovery against verification *)

Lemma resolve_north (svc : Service) (name : string) (star : SimbadRow)
    (others : list SimbadRow) :
  simbad_query_object svc name = star :: others -> (-25 < s_dec star)%Q ->
  resolve svc name = ([], inr star).
Proof.
  intros S G. unfold resolve. rewrite S.
  destruct (Qle_bool (s_dec star) (-25)) eqn:E; trivial.
  apply Qle_bool_iff in E. exfalso. exact (Qlt_not_le _ _ G E).
Qed.

Lemma bind_value {A B : Type} (log : list Event) (a : A) (k : A -> Run B) :
  bind (log, inr a) k = (log ++ fst (k a), snd (k a)).
Proof. simpl. destruct (k a). reflexivity. Qed.





(** The converse fails: V mag 9.0 passes the verification check and is
    filtered out by the discovery query. *)
Example verification_is_laxer :
  jsdc_fails row_V9 = false /\ jsdc_find_accepts row_V9 = false.
Proof. split; reflexivity. Qed.

(** ** More than one row where one is expected *)

(** X9: the verification mode tests the JSDC, Kervella and MDFC tables as
    a whole in an [if]: when one of these 5-arcsecond searches returns two
    rows or more, the check raises [ValueError] (lines 234, 306, 337)
    right after the query, before any point is taken or any verdict is
    given.  For JSDC this ends the whole run with the initial score and a
    single query in its log. *)
Theorem crowded_field_raises (svc : Service) (name : string) (flag : bool) (s : Z) :
  (forall r1 r2 t ts,
     vizier_jsdc svc (jsdc_check_query name) = (r1 :: r2 :: t) :: ts ->
     jsdc_check svc name s = ([Queried (jsdc_check_query name)], inl (ValueError 234))
     /\ forall star others,
          simbad_query_object svc name = star :: others -> (-25 < s_dec star)%Q ->
          cal_checker svc name flag =
            ([Score (init_check_pass_count flag); Queried (jsdc_check_query name)],
             inl (ValueError 234)))
  /\ (forall r1 r2 t ts,
        vizier_kervella svc (kervella_check_query name) = (r1 :: r2 :: t) :: ts ->
        kervella_check svc name s =
          ([Queried (kervella_check_query name)], inl (ValueError 306)))
  /\ (forall r1 r2 t ts,
        vizier_cruzalebes svc (cruzalebes_check_query name) = (r1 :: r2 :: t) :: ts ->
        cruzalebes_check svc name s =
          ([Queried (cruzalebes_check_query name)], inl (ValueError 337))).
Proof.
  split; [| split]; intros r1 r2 t ts H.
  - assert (E : forall s', jsdc_check svc name s' =
                  ([Queried (jsdc_check_query name)], inl (ValueError 234))).
    { intro s'. unfold jsdc_check, query_jsdc. simpl. rewrite H. reflexivity. }
    split; [apply E |]. intros star others S N.
    unfold cal_checker. rewrite (resolve_north _ _ _ _ S N), bind_value.
    cbn [fst snd app]. unfold tell at 1. rewrite bind_value.
    rewrite E. reflexivity.
  - unfold kervella_check, query_kervella. simpl. rewrite H. reflexivity.
  - unfold cruzalebes_check, query_cruzalebes. simpl. rewrite H. reflexivity.
Qed.

Lemma crowded_field_raises_witness :
  cal_checker svc_two_jsdc_rows "HD 5678" false =
    ([Score 4; Queried (jsdc_check_query "HD 5678")], inl (ValueError 234)).
Proof.
  apply (proj2 (proj1 (crowded_field_raises svc_two_jsdc_rows "HD 5678" false 4)
                  row_HD5678 row_V9 [] [] eq_refl) star_ok [] eq_refl).
  reflexivity.
Defined.

(** ** The table the discovery mode writes *)





(** ** The queries a run sends *)

Lemma queries_app (l1 l2 : list Event) : queries (l1 ++ l2) = queries l1 ++ queries l2.
Proof.
  induction l1 as [| e l1 IH]; simpl; trivial.
  destruct e; simpl; rewrite ?IH; trivial.
Qed.

Ltac queries_solve := cbn; stage_cases; reflexivity.

Lemma jsdc_check_sends (svc : Service) (name : string) (c : Z) :
  queries (fst (jsdc_check svc name c)) = [jsdc_check_query name].
Proof.
  unfold jsdc_check, query_jsdc.
  destruct (vizier_jsdc svc (jsdc_check_query name)) as [| [| row [| row' t]] ts];
    queries_solve.
Qed.

Lemma gaia_check_sends (svc : Service) (name : string) (flag : bool) (c : Z) :
  queries (fst (gaia_check svc name flag c)) = [gaia_check_query name].
Proof.
  unfold gaia_check, query_gaia.
  destruct (vizier_gaia svc (gaia_check_query name)) as [| table ts];
    [queries_solve |].
  cbn [bind tell ret app]. rewrite bind_fst_snd.
  assert (W : forall c', queries (fst (gaia_companion_warning flag table c')) = []).
  { intro c'. unfold gaia_companion_warning. destruct flag; queries_solve. }
  assert (T : forall row c', queries (fst (gaia_threshold_checks row c')) = []).
  { intros row c'. unfold gaia_threshold_checks. queries_solve. }
  destruct (snd (gaia_companion_warning flag table c)) as [e | c'];
    cbn [fst queries]; rewrite ?queries_app, W; trivial.
  destruct table as [| row rest]; [reflexivity |]. rewrite T. reflexivity.
Qed.

Lemma kervella_check_sends (svc : Service) (name : string) (c : Z) :
  queries (fst (kervella_check svc name c)) = [kervella_check_query name].
Proof.
  unfold kervella_check, query_kervella.
  destruct (vizier_kervella svc (kervella_check_query name))
    as [| [| row [| row' t]] ts]; queries_solve.
Qed.

Lemma cruzalebes_check_sends (svc : Service) (name : string) (c : Z) :
  queries (fst (cruzalebes_check svc name c)) = [cruzalebes_check_query name].
Proof.
  unfold cruzalebes_check, query_cruzalebes.
  destruct (vizier_cruzalebes svc (cruzalebes_check_query name))
    as [| [| row [| row' t]] ts]; queries_solve.
Qed.

Lemma in_firstn_in {A : Type} (x : A) (n : nat) (l : list A) :
  In x (firstn n l) -> In x l.
Proof.
  revert l. induction n as [| n IH]; intros [| y l] I; simpl in *; try contradiction.
  destruct I as [E | I]; auto.
Qed.

(** X11: a verification run queries the four catalogues in the order
    JSDC, Gaia DR3, Kervella, MDFC, each once, by the name of the
    candidate and with no column filter: the queries of any run are the
    first [n] of these four, and all four when the run reaches its end. *)
Theorem cal_checker_queries (svc : Service) (name : string) (flag : bool) :
  let run := cal_checker svc name flag in
  let four := [jsdc_check_query name; gaia_check_query name;
               kervella_check_query name; cruzalebes_check_query name] in
  (exists n, queries (fst run) = firstn n four)
  /\ (snd run = inr tt -> queries (fst run) = four)
  /\ (forall q, In q (queries (fst run)) ->
        rq_reference q = ByName name /\ rq_column_filters q = []).
Proof.
  intros run four.
  assert (P : (exists n, queries (fst run) = firstn n four)
              /\ (snd run = inr tt -> queries (fst run) = four)).
  { subst run. unfold cal_checker. rewrite bind_fst_snd, resolve_log.
    destruct (snd (resolve svc name)) as [e | star]; cbn [fst snd app].
    { split; [exists 0%nat; reflexivity | discriminate]. }
    rewrite bind_fst_snd. cbn [tell fst snd app queries].
    rewrite bind_fst_snd.
    destruct (snd (jsdc_check svc name _)) as [e | c1]; cbn [fst snd];
      rewrite ?queries_app, jsdc_check_sends.
    { split; [exists 1%nat; reflexivity | discriminate]. }
    rewrite bind_fst_snd.
    destruct (snd (gaia_check svc name flag c1)) as [e | c2]; cbn [fst snd];
      rewrite ?queries_app, gaia_check_sends.
    { split; [exists 2%nat; reflexivity | discriminate]. }
    rewrite bind_fst_snd.
    destruct (snd (kervella_check svc name c2)) as [e | c3]; cbn [fst snd];
      rewrite ?queries_app, kervella_check_sends.
    { split; [exists 3%nat; reflexivity | discriminate]. }
    rewrite bind_fst_snd.
    destruct (snd (cruzalebes_check svc name c3)) as [e | c4]; cbn [fst snd];
      rewrite ?queries_app, cruzalebes_check_sends.
    { split; [exists 4%nat; reflexivity | discriminate]. }
    split; [exists 4%nat; reflexivity | reflexivity]. }
  destruct P as [[n E] C]. split; [exists n; exact E |]. split; [exact C |].
  intros q I. rewrite E in I. apply in_firstn_in in I.
  destruct I as [<- | [<- | [<- | [<- | []]]]]; split; reflexivity.
Qed.

Lemma resolve_abort_message (svc : Service) (name : string) (log : list Event)
    (e : Abort) :
  resolve svc name = (log, inl e) ->
  log = [] /\ (e = SysExit NotFoundInSimbad \/ e = SysExit OutsideDeclinationLimits).
Proof.
  unfold resolve. destruct (simbad_query_object svc name) as [| star t].
  - intro H. inversion H. auto.
  - destruct (Qle_bool (s_dec star) (-25)); intro H; inversion H. auto.
Qed.

Lemma companion_exclusion_sends (svc : Service) (gaia_comp_check : option Q)
    (gaia_result : list GaiaRow) :
  map rq_catalog (queries (fst (companion_exclusion svc gaia_comp_check gaia_result)))
  = if companion_requested gaia_comp_check then [GaiaDR3] else [].
Proof.
  unfold companion_exclusion, companion_requested, query_gaia.
  destruct gaia_comp_check as [radius |]; [| reflexivity].
  destruct (truthy radius); [| reflexivity]. cbn.
  destruct (vizier_gaia svc (neighbors_query gaia_result radius)) as [| nb ts];
    [reflexivity |].
  cbn. destruct (removal_list (map g_q nb)); reflexivity.
Qed.

(** X12: when a discovery run exits, the message names the first
    catalogue that returned nothing and the catalogues queried are exactly
    those up to it, in the order JSDC, Gaia DR3, the neighbour search in
    Gaia DR3 when a non-zero radius was given, Kervella, MDFC: no later
    catalogue is queried.  The exits on the SIMBAD answer come before any
    query, and the message of the verification mode never occurs. *)
Theorem cal_finder_exit_stage (svc : Service) (name : string)
    (gaia_comp_check : option Q) (log : list Event) (msg : ExitMessage) :
  cal_finder svc name gaia_comp_check = (log, inl (SysExit msg)) ->
  map rq_catalog (queries log) = catalogs_before gaia_comp_check msg
  /\ msg <> NotFoundInGaia.
Proof.
  enough (G : forall out,
             cal_finder svc name gaia_comp_check = (log, out) ->
             out = inl (SysExit msg) ->
             map rq_catalog (queries log) = catalogs_before gaia_comp_check msg
             /\ msg <> NotFoundInGaia)
    by (intro H; exact (G _ H eq_refl)).
  intros out H. unfold cal_finder in H.
  run_step H l1 star l1' E1.
  { intro O. apply resolve_abort_message in E1. destruct E1 as [-> [E | E]];
      rewrite E in O; inversion O; subst msg; split; trivial; discriminate. }
  pose proof (resolve_log svc name) as L1. rewrite E1 in L1. simpl in L1.
  subst l1. clear E1.
  run_step H l2 jmmc_result l2' E2; [run_query E2 | run_query E2].
  run_step H l3 jmmc l3' E3.
  { intro O. apply first_table_abort in E3. destruct E3 as [-> E]. rewrite E in O.
    inversion O; subst msg. split; [reflexivity | discriminate]. }
  apply first_table_value in E3. destruct E3 as [-> _].
  run_step H l4 gaia_result l4' E4; [run_query E4 | run_query E4].
  run_step H l5 gaia0 l5' E5.
  { intro O. apply first_table_abort in E5. destruct E5 as [-> E]. rewrite E in O.
    inversion O; subst msg. split; [reflexivity | discriminate]. }
  apply first_table_value in E5. destruct E5 as [-> _].
  run_step H l6 gaia l6' E6.
  { intro O. apply companion_exclusion_inv in E6. destruct E6 as [A _].
    rewrite (A _ eq_refl) in O. discriminate. }
  pose proof (companion_exclusion_sends svc gaia_comp_check gaia0) as C6.
  rewrite E6 in C6. cbn [fst] in C6.
  run_step H l7 rows1 l7' E7.
  { intro O. apply select_rows_inv in E7.
    destruct E7 as [_ [[_ E] | (rows & _ & E)]]; congruence. }
  apply select_rows_inv in E7. destruct E7 as [-> _].
  run_step H l8 kervella_result l8' E8; [run_query E8 | run_query E8].
  run_step H l9 kerv l9' E9.
  { intro O. apply first_table_abort in E9. destruct E9 as [-> E]. rewrite E in O.
    inversion O; subst msg. split; [| discriminate].
    cbn [app queries map]. rewrite !queries_app, !map_app, C6.
    unfold catalogs_before. reflexivity. }
  apply first_table_value in E9. destruct E9 as [-> _].
  run_step H l10 rows2 l10' E10.
  { intro O. apply select_rows_inv in E10.
    destruct E10 as [_ [[_ E] | (rows & _ & E)]]; congruence. }
  apply select_rows_inv in E10. destruct E10 as [-> _].
  run_step H l11 cruzalebes_result l11' E11; [run_query E11 | run_query E11].
  run_step H l12 cruz l12' E12.
  { intro O. apply first_table_abort in E12. destruct E12 as [-> E]. rewrite E in O.
    inversion O; subst msg. split; [| discriminate].
    cbn [app queries map]. rewrite !queries_app, !map_app, C6.
    unfold catalogs_before. reflexivity. }
  apply first_table_value in E12. destruct E12 as [-> _].
  run_step H l13 rows3 l13' E13.
  { intro O. apply select_rows_inv in E13.
    destruct E13 as [_ [[_ E] | (rows & _ & E)]]; congruence. }
  intro O. exfalso. revert H. cbv zeta.
  match goal with
  | |- context [tell (Wrote _ ?x)] => generalize x
  end.
  intro fcct. destruct (0 <? List.length fcct)%nat;
    cbn [bind tell print fst snd app]; intro H; inversion H; subst; discriminate.
Qed.

Lemma cal_finder_exit_stage_witness :
  map rq_catalog
    (queries [Queried (jsdc_find_query "HD 1234");
              Queried (gaia_find_query [jsdc_A]);
              Queried (neighbors_query [gaia_of 1 jsdc_A] 5%Q);
              Queried (kervella_find_query [gaia_of 1 jsdc_A])])
  = [JSDC; GaiaDR3; GaiaDR3; Kervella].
Proof.
  apply (cal_finder_exit_stage
           (constant_service [star_ok] [[jsdc_A]] [[gaia_of 1 jsdc_A]] [] [])
           "HD 1234" (Some 5%Q) _ NoCalibratorsInKervella).
  reflexivity.
Defined.

(** ** The prompt *)

Lemma split_on_not_nil (sep : ascii) (s : string) : split_on sep s <> [].
Proof.
  destruct s as [| c s]; simpl; [discriminate |].
  destruct (Ascii.eqb c sep); [discriminate |].
  destruct (split_on sep s); discriminate.
Qed.

(** X13: splitting the list of names at the commas loses nothing and
    leaves no comma behind: joining the pieces with the separator gives the
    line back, no piece contains the separator, and there is always at
    least one piece (an empty line gives one empty name). *)
Theorem split_on_join (sep : ascii) (s : string) :
  String.concat (String sep EmptyString) (split_on sep s) = s
  /\ (forall piece, In piece (split_on sep s) ->
        forall n, String.get n piece <> Some sep)
  /\ split_on sep s <> [].
Proof.
  split; [| split; [| apply split_on_not_nil]].
  - induction s as [| c s IH]; [reflexivity |]. simpl.
    pose proof (split_on_not_nil sep s) as N.
    destruct (Ascii.eqb_spec c sep) as [-> | D].
    + destruct (split_on sep s) as [| p ps]; [congruence |].
      simpl in *. rewrite IH. reflexivity.
    + destruct (split_on sep s) as [| p ps]; [congruence |].
      destruct ps as [| p' ps]; simpl in *; rewrite <- IH; reflexivity.
  - induction s as [| c s IH]; simpl.
    + intros piece [<- | []] n. destruct n; discriminate.
    + destruct (Ascii.eqb_spec c sep) as [-> | D].
      * intros piece [<- | I] n; [destruct n; discriminate | apply IH, I].
      * destruct (split_on sep s) as [| p ps].
        -- intros piece [<- | []] [| n]; simpl; [congruence | destruct n; discriminate].
        -- intros piece [<- | I] n.
           ++ destruct n as [| n]; simpl; [congruence |].
              apply IH. left. reflexivity.
           ++ apply IH. right. exact I.
Qed.

(** X14: the loop over several calibrators stops at the first name whose
    check does not reach its end (not in SIMBAD, south of the declination
    limit, not in Gaia DR3, or an exception): the names before it are
    checked in order, the names after it are never looked at.  When every
    check reaches its end, all the names are checked in order. *)
Theorem check_each_stops_at_first_failure (svc : Service) (flag : bool)
    (checked : list string) :
  Forall (fun n => snd (cal_checker svc n flag) = inr tt) checked ->
  check_each svc flag checked =
    (map Core (flat_map (fun n => fst (cal_checker svc n flag)) checked), Returned)
  /\ forall failing rest a,
       snd (cal_checker svc failing flag) = inl a ->
       check_each svc flag (checked ++ failing :: rest) =
         (map Core (flat_map (fun n => fst (cal_checker svc n flag))
                      (checked ++ [failing])),
          Stopped a).
Proof.
  induction 1 as [| n checked Hn _ IH].
  - split; [reflexivity |]. intros failing rest a F. simpl.
    rewrite F, app_nil_r. reflexivity.
  - destruct IH as [IH1 IH2]. split.
    + simpl. rewrite Hn, IH1, map_app. reflexivity.
    + intros failing rest a F. simpl. rewrite Hn, (IH2 _ _ _ F), map_app.
      reflexivity.
Qed.

Lemma check_each_stops_at_first_failure_witness :
  check_each svc_unknown_HD0 false (["HD 1001"] ++ "HD 0" :: ["HD 1002"]) =
    (map Core (flat_map (fun n => fst (cal_checker svc_unknown_HD0 n false))
                 (["HD 1001"] ++ ["HD 0"])),
     Stopped (SysExit NotFoundInSimbad)).
Proof.
  apply (check_each_stops_at_first_failure svc_unknown_HD0 false ["HD 1001"]).
  - repeat constructor.
  - reflexivity.
Defined.







